(** * Verification of [src/db.js]: user and message schemas

    The development embeds the mongoose schemas of [db.js] (the [userSchema]
    with its passports, validators, password verification, pre-save hook and
    client projection, and the [messageSchema] with its virtual fields) and
    proves the properties the specification states about them.

    Conventions of the embedding:
    - a JavaScript string is a [string]; each character stands for one UTF-16
      code unit, so [String.length] is the [.length] of the source (the model
      covers the code units 0..255);
    - a schema path of type [String] holds [option string]: [None] is
      [undefined];
    - calls to [bcrypt] and to [console] are events of a program tree
      ([Prog]); their answers come from an environment that may depend on
      the whole history (bcrypt salts its digests at random);
    - the document a method mutates ([this]) is threaded explicitly: a
      method returns the document as it leaves it. *)

From Stdlib Require Import ZArith QArith Qround Ascii String.
From stdpp Require Import gmap strings list fin_maps pretty.

Open Scope string_scope.
Open Scope list_scope.
Open Scope Z_scope.

(** ** JavaScript values *)

Set Warnings "-register-all".

Inductive JsVal : Type :=
| VUndefined
| VBool (b : bool)
| VNum (n : Z)
| VString (s : string)
| VObjectId (oid : string)
| VDate (ms : Z)
| VArray (elems : list JsVal)
| VObject (fields : list (string * JsVal)).

(** [ToBoolean]: [undefined], [false], [0] and the empty string are falsy. *)
Definition truthy (v : JsVal) : bool :=
  match v with
  | VUndefined => false
  | VBool b => b
  | VNum n => negb (Z.eqb n 0)
  | VString s => negb (Nat.eqb (String.length s) 0)
  | VObjectId _ | VDate _ | VArray _ | VObject _ => true
  end.

(** [a && b] on values whose evaluation has no effect: the left operand
    when it is falsy, the right one otherwise. *)
Definition js_and (a b : JsVal) : JsVal := if truthy a then b else a.
Infix "&&&" := js_and (at level 40, left associativity).

(** [!a] *)
Definition js_not (a : JsVal) : bool := negb (truthy a).

(** The value of a [String] path. *)
Definition js (v : option string) : JsVal :=
  match v with
  | Some s => VString s
  | None => VUndefined
  end.

(** [ToString] of a [String] path, as string concatenation applies it. *)
Definition js_string (v : option string) : string :=
  match v with
  | Some s => s
  | None => "undefined"
  end.

(** [v.length] where [v] is a string (guarded by [v &&] or [!v ||] in the
    source, so the other cases are never evaluated). *)
Definition js_length (v : JsVal) : Z :=
  match v with
  | VString s => Z.of_nat (String.length s)
  | _ => 0
  end.

(** A string path that is set and not the empty string. *)
Definition non_empty (v : option string) : Prop :=
  ∃ s, v = Some s ∧ s ≠ "".

(** ** [String.prototype.trim] (mongoose's [trim: true] setter) *)

Module JsString.

(** White space and line terminators among the code units 0..255. *)
Definition is_white_space (c : ascii) : bool :=
  match c with
  | "009" | "010" | "011" | "012" | "013" | " " | "160" => true
  | _ => false
  end%char.

Fixpoint trimStart (s : string) : string :=
  match s with
  | String c s' => if is_white_space c then trimStart s' else s
  | EmptyString => EmptyString
  end.

Definition trimEnd (s : string) : string :=
  String.rev (trimStart (String.rev s)).

Definition trim (s : string) : string := trimEnd (trimStart s).

(** The double quote, code unit 34. *)
Definition dquote : string := String "034"%char EmptyString.

End JsString.

(** ** mongoose: validation of one schema path

    mongoose is a dependency of [db.js]; the rules by which it applies the
    validators a schema declares are modelled here as it documents them. *)

Module SchemaType.

(** The [required] validator of a [String] path. *)
Definition checkRequired (value : JsVal) : bool :=
  match value with
  | VString s => negb (Nat.eqb (String.length s) 0)
  | _ => false
  end.

(** A validator passes when it returns [undefined] or a truthy value. *)
Definition validator_ok (result : JsVal) : bool :=
  match result with
  | VUndefined => true
  | _ => truthy result
  end.

(** [doValidate]: a path that is [undefined] and not required is valid;
    otherwise every validator of the path has to pass. *)
Definition doValidate (isRequired : bool) (validators : list (JsVal → JsVal))
    (value : JsVal) : bool :=
  match value, isRequired with
  | VUndefined, false => true
  | _, _ =>
      (if isRequired then checkRequired value else true)
      && forallb (λ validator, validator_ok (validator value)) validators
  end.

(** The [enum] validator. *)
Definition enumValidator (values : list string) (v : JsVal) : JsVal :=
  match v with
  | VUndefined => VBool true
  | VString s => VBool (bool_decide (s ∈ values))
  | _ => VBool false
  end.

End SchemaType.

(** ** Effects: calls to [bcrypt] and [console] *)

Module Effects.

(** An [Error] object of the bcrypt binding; its message is kept. *)
Definition Error : Type := string.

(** A program is a tree of external calls. A callback or a return value of
    bcrypt is either an error ([inl]) or a result ([inr]). *)
Inductive Prog (A : Type) : Type :=
| Ret (a : A)
| bcrypt_hash (data : JsVal) (rounds : Z) (k : Error + string → Prog A)
| bcrypt_compare (data : JsVal) (encrypted : JsVal) (k : Error + bool → Prog A)
| bcrypt_compareSync (data : JsVal) (encrypted : JsVal)
    (k : Error + bool → Prog A)
| console_info (args : list JsVal) (k : Prog A).

Arguments Ret {A} a.
Arguments bcrypt_hash {A} data rounds k.
Arguments bcrypt_compare {A} data encrypted k.
Arguments bcrypt_compareSync {A} data encrypted k.
Arguments console_info {A} args k.

(** The external calls a run has made, oldest first. *)
Inductive Call : Type :=
| CallHash (data : JsVal) (rounds : Z)
| CallCompare (data : JsVal) (encrypted : JsVal)
| CallCompareSync (data : JsVal) (encrypted : JsVal)
| CallInfo (args : list JsVal).

(** What bcrypt answers. The answer may depend on the calls made so far:
    bcrypt draws a fresh salt for every digest. *)
Record Env : Type := {
  hash_answer : list Call → JsVal → Z → Error + string;
  compare_answer : list Call → JsVal → JsVal → Error + bool
}.

Fixpoint run {A} (env : Env) (log : list Call) (p : Prog A) : A * list Call :=
  match p with
  | Ret a => (a, log)
  | bcrypt_hash data rounds k =>
      run env (log ++ [CallHash data rounds])
        (k (hash_answer env log data rounds))
  | bcrypt_compare data encrypted k =>
      run env (log ++ [CallCompare data encrypted])
        (k (compare_answer env log data encrypted))
  | bcrypt_compareSync data encrypted k =>
      run env (log ++ [CallCompareSync data encrypted])
        (k (compare_answer env log data encrypted))
  | console_info args k => run env (log ++ [CallInfo args]) k
  end.

Definition is_hash (c : Call) : bool :=
  match c with CallHash _ _ => true | _ => false end.

Definition is_bcrypt (c : Call) : bool :=
  match c with CallInfo _ => false | _ => true end.

(** The [bcrypt.hash] calls of a log, and all its bcrypt calls. *)
Definition hash_calls (log : list Call) : list Call := List.filter is_hash log.
Definition bcrypt_calls (log : list Call) : list Call :=
  List.filter is_bcrypt log.

End Effects.

Import Effects.

(** ** The user schema *)

Module userSchema.

(** *** Documents *)

Module Passport.

Record t : Type := mk {
  _id : string;
  type : option string;
  password : option string;
  accessToken : option string;
  profileId : option string
}.

(** [localPassport.password = v]: the path has [trim: true]. *)
Definition set_password (v : string) (p : t) : t :=
  mk (_id p) (type p) (Some (JsString.trim v)) (accessToken p) (profileId p).

Definition field (k : string) (v : option string) : list (string * JsVal) :=
  match v with
  | Some s => [(k, VString s)]
  | None => []
  end.

(** The plain object of a sub-document: the paths that are set. *)
Definition toObject (p : t) : JsVal :=
  VObject (field "type" (type p) ++ field "password" (password p)
           ++ field "accessToken" (accessToken p)
           ++ field "profileId" (profileId p)
           ++ [("_id", VObjectId (_id p))]).

End Passport.

Record User : Type := mkUser {
  _id : string;
  username : option string;
  name : option string;
  passports : list Passport.t;
  avatarUrl : option string;
  createdAt : option Z;
  updatedAt : option Z;
  __v : option Z
}.

(** [this.name = v] *)
Definition set_name (v : option string) (this : User) : User :=
  mkUser (_id this) (username this) v (passports this) (avatarUrl this)
    (createdAt this) (updatedAt this) (__v this).

Definition set_passports (ps : list Passport.t) (this : User) : User :=
  mkUser (_id this) (username this) (name this) ps (avatarUrl this)
    (createdAt this) (updatedAt this) (__v this).

(** [this.username = v]: the path has [trim: true]. *)
Definition set_username (v : string) (this : User) : User :=
  mkUser (_id this) (Some (JsString.trim v)) (name this) (passports this)
    (avatarUrl this) (createdAt this) (updatedAt this) (__v this).

(** *** Validators of the schema paths *)

(** [v && v.length > 0 && v.length<32] *)
Definition username_validator (v : JsVal) : JsVal :=
  v &&& VBool (0 <? js_length v) &&& VBool (js_length v <? 32).

(** [v && v.length > 0 && v.length<64] *)
Definition name_validator (v : JsVal) : JsVal :=
  v &&& VBool (0 <? js_length v) &&& VBool (js_length v <? 64).

(** [!pwd || (pwd.length > 0 && pwd.length<64)] *)
Definition password_validator (pwd : JsVal) : JsVal :=
  VBool (js_not pwd || ((0 <? js_length pwd) && (js_length pwd <? 64))).

Definition passport_types : list string := ["local"; "facebook"; "google"].

Definition validate_username (v : option string) : bool :=
  SchemaType.doValidate true [username_validator] (js v).

Definition validate_name (v : option string) : bool :=
  SchemaType.doValidate false [name_validator] (js v).

Definition validate_type (v : option string) : bool :=
  SchemaType.doValidate true [SchemaType.enumValidator passport_types] (js v).

Definition validate_password (v : option string) : bool :=
  SchemaType.doValidate false [password_validator] (js v).

Definition invalid (path : string) (ok : bool) : list string :=
  if ok then [] else [path].

(** The paths of a document that fail validation, every one of them. *)
Definition validate (this : User) : list string :=
  invalid "username" (validate_username (username this))
  ++ invalid "name" (validate_name (name this))
  ++ mjoin (imap (λ i p,
       invalid ("passports." +:+ pretty i +:+ ".type")
         (validate_type (Passport.type p))
       ++ invalid ("passports." +:+ pretty i +:+ ".password")
            (validate_password (Passport.password p)))
     (passports this)).

(** *** Methods *)

Definition is_type (type : string) (p : Passport.t) : Prop :=
  Passport.type p = Some type.

Global Instance is_type_dec type p : Decision (is_type type p) :=
  decide (Passport.type p = Some type).

(** [this.passports.find(p => p.type === type)]. The result is a
    reference into [this.passports]: the slot of the first match together
    with the sub-document in it; [None] is [undefined]. *)
Definition getPassportByType (this : User) (type : string)
    : option (nat * Passport.t) :=
  list_find (is_type type) (passports this).

(** [verifyPassword(password, next)]: the result is what [next] receives,
    [next(err)] as [inl err] and [next(null, res)] as [inr res]. *)
Definition verifyPassword (this : User) (password : option string)
    : Prog (Error + bool) :=
  let localPassport := getPassportByType this "local" in
  if truthy (js password) then
    match localPassport with
    | Some (_, lp) =>
        bcrypt_compare (js password) (js (Passport.password lp)) Ret
    | None => Ret (inr false)
    end
  else Ret (inr false).

(** [verifyPasswordSync(password)]: the value of
    [password && localPassport && bcrypt.compareSync(...)], or the
    exception [compareSync] throws ([inl]). *)
Definition verifyPasswordSync (this : User) (password : option string)
    : Prog (Error + JsVal) :=
  let localPassport := getPassportByType this "local" in
  if truthy (js password) then
    match localPassport with
    | Some (_, lp) =>
        bcrypt_compareSync (js password) (js (Passport.password lp))
          (λ r, Ret (sum_map id VBool r))
    | None => Ret (inr VUndefined)
    end
  else Ret (inr (js password)).

(** *** The pre-save hook *)

(** [new ValidatorError(path, message, type, value)] *)
Record ValidatorError : Type := mkValidatorError {
  path : string;
  message : string;
  kind : string;
  value : JsVal
}.

(** What a save hands to [next]. *)
Inductive SaveError : Type :=
| ValidationError (errors : gmap string ValidatorError)
    (** [new ValidationError(this)] with its [errors] object *)
| SchemaValidationError (paths : list string)
    (** the [ValidationError] of mongoose's own validation step; the
        failing paths are kept *)
| HashError (err : Error)
    (** the error [bcrypt.hash] reports *).

Definition passports_value (this : User) : JsVal :=
  VArray (Passport.toObject <$> passports this).

(** [localPassport.password = hash] through the reference [i]. *)
Definition set_localPassport_password (i : nat) (hash : string) (this : User)
    : User :=
  set_passports (alter (Passport.set_password hash) i (passports this)) this.

(** [beforeSave(next)]: the document as the hook leaves it, and the
    argument of [next] ([None] for [next()]). *)
Definition beforeSave (this : User) : Prog (User * option SaveError) :=
  let this :=
    if js_not (js (name this)) then set_name (username this) this else this in
  let localPassport := getPassportByType this "local" in
  let error := (∅ : gmap string ValidatorError) in
  match localPassport with
  | None =>
      let error :=
        <["passports" :=
            mkValidatorError "passports"
              ("at least a passport of type " +:+ JsString.dquote +:+ "local"
               +:+ JsString.dquote +:+ " is required")
              "notvalid" (passports_value this)]> error in
      Ret (this, Some (ValidationError error))
  | Some (i, lp) =>
      console_info [VString "presave localPassport"; Passport.toObject lp]
        (if js_not (js (Passport.password lp)) then
           console_info [VString "presave localPassport.password";
                         js (Passport.password lp)]
             (let error :=
                <["password" :=
                    mkValidatorError "password" "password is required"
                      "notvalid" (js (Passport.password lp))]> error in
              Ret (this, Some (ValidationError error)))
         else
           bcrypt_hash (js (Passport.password lp)) 10
             (λ r, match r with
                   | inl err => Ret (this, Some (HashError err))
                   | inr hash =>
                       Ret (set_localPassport_password i hash this, None)
                   end))
  end.

(** [save]: the two steps of a save that this schema decides. mongoose
    validates the document first and runs the pre-save hook above when no
    path is invalid. What mongoose and the storage layer do around them
    (the [createdAt] and [updatedAt] of [timestamps: true], the version
    key, the write) is not modelled: [save] leaves those paths as they
    are. *)
Definition save (this : User) : Prog (User * option SaveError) :=
  match validate this with
  | [] => beforeSave this
  | paths => Ret (this, Some (SchemaValidationError paths))
  end.

(** *** The client projection *)

Definition set_field (k : string) (v : option JsVal)
    (obj : gmap string JsVal) : gmap string JsVal :=
  match v with
  | Some x => <[k := x]> obj
  | None => obj
  end.

(** [this.toObject()]: a fresh plain object with the paths that are set. *)
Definition toObject (this : User) : gmap string JsVal :=
  set_field "__v" (VNum <$> __v this)
    (set_field "updatedAt" (VDate <$> updatedAt this)
      (set_field "createdAt" (VDate <$> createdAt this)
        (set_field "avatarUrl" (VString <$> avatarUrl this)
          (<["passports" := passports_value this]>
            (set_field "name" (VString <$> name this)
              (set_field "username" (VString <$> username this)
                (<["_id" := VObjectId (_id this)]> ∅))))))).

(** [obj.k] *)
Definition get (obj : gmap string JsVal) (k : string) : JsVal :=
  default VUndefined (obj !! k).

Definition toClient (this : User) : gmap string JsVal :=
  let obj := toObject this in
  let obj := <["id" := get obj "_id"]> obj in
  let obj := delete "_id" obj in
  let obj := delete "passports" obj in
  obj.

End userSchema.

(** ** The message schema *)

Module messageSchema.

Record Creator : Type := mkCreator {
  id : string;
  name : option string;
  avatarUrl : option string
}.

Record Geo : Type := mkGeo {
  country_name : option string;
  region_name : option string;
  city : option string;
  time_zone : option string
}.

(** [createdAt] is the [Date] the storage layer sets, in milliseconds. *)
Record Message : Type := mkMessage {
  _id : string;
  creator : Creator;
  text : option string;
  geo : Geo;
  createdAt : Z;
  updatedAt : Z
}.

(** [Math.round(x)]: the integer nearest to [x], ties towards +infinity.
    The quotient of two integers is taken exactly; the double the source
    computes rounds to the same integer for every pair of [Date]s whose
    distance decides a branch below. *)
Definition Math_round (x : Q) : Z := Qfloor (x + (1 # 2))%Q.

(** [Math.floor(a / b)] for integers [a] and [b > 0]. *)
Definition Math_floor_div (a b : Z) : Z := a / b.

(** The [friendlyTimestamp] virtual; [now] is [+new Date()]. *)
Definition friendlyTimestamp (now : Z) (this : Message) : string :=
  let delta := Math_round (inject_Z (now - createdAt this) / inject_Z 1000)%Q in
  let minute := 60 in
  let hour := minute * 60 in
  let day := hour * 24 in
  let week := day * 7 in
  if delta <? 30 then "just now"
  else if delta <? minute then pretty delta +:+ " seconds ago"
  else if delta <? 2 * minute then "a minute ago"
  else if delta <? hour then
    pretty (Math_floor_div delta minute) +:+ " minutes ago"
  else if Math_floor_div delta hour =? 1 then "1 hour ago"
  else if delta <? day then pretty (Math_floor_div delta hour) +:+ " hours ago"
  else if delta <? day * 2 then "yesterday"
  else if delta <? week then pretty (Math_floor_div delta day) +:+ " days ago"
  else " a long time ago".

(** The [location] virtual; [None] is [undefined]. *)
Definition location (this : Message) : option string :=
  let geo := geo this in
  if truthy (js (time_zone geo)) && (0 <? js_length (js (time_zone geo)))
  then time_zone geo
  else if truthy (js (country_name geo))
          && negb (js_length (js (country_name geo)) =? 0)
          && truthy (js (city geo))
          && negb (js_length (js (city geo)) =? 0)
  then Some (js_string (city geo) +:+ "/" +:+ js_string (country_name geo))
  else None.

(** The [footer] virtual. *)
Definition footer (now : Z) (this : Message) : string :=
  let loc := location this in
  let timestamp := friendlyTimestamp now this in
  if truthy (js loc) then timestamp +:+ ", " +:+ js_string loc
  else timestamp.

(** *** Validators of the schema paths *)

(** [creator.name]: [v && v.length > 0 && v.length<256] *)
Definition creator_name_validator (v : JsVal) : JsVal :=
  v &&& VBool (0 <? js_length v) &&& VBool (js_length v <? 256).

(** [creator.avatarUrl]: [!v || v.length > 0] *)
Definition creator_avatarUrl_validator (v : JsVal) : JsVal :=
  VBool (js_not v || (0 <? js_length v)).

(** [text]: [v && v.length > 0 && v.length<256] *)
Definition text_validator (v : JsVal) : JsVal :=
  v &&& VBool (0 <? js_length v) &&& VBool (js_length v <? 256).

(** [geo.country_name], [geo.region_name], [geo.city], [geo.time_zone]:
    each [!v || v.length<256] *)
Definition country_name_validator (v : JsVal) : JsVal :=
  VBool (js_not v || (js_length v <? 256)).

Definition region_name_validator (v : JsVal) : JsVal :=
  VBool (js_not v || (js_length v <? 256)).

Definition city_validator (v : JsVal) : JsVal :=
  VBool (js_not v || (js_length v <? 256)).

Definition time_zone_validator (v : JsVal) : JsVal :=
  VBool (js_not v || (js_length v <? 256)).

Definition validate_creator_name (v : option string) : bool :=
  SchemaType.doValidate true [creator_name_validator] (js v).

Definition validate_creator_avatarUrl (v : option string) : bool :=
  SchemaType.doValidate false [creator_avatarUrl_validator] (js v).

Definition validate_text (v : option string) : bool :=
  SchemaType.doValidate true [text_validator] (js v).

Definition validate_country_name (v : option string) : bool :=
  SchemaType.doValidate false [country_name_validator] (js v).

Definition validate_region_name (v : option string) : bool :=
  SchemaType.doValidate false [region_name_validator] (js v).

Definition validate_city (v : option string) : bool :=
  SchemaType.doValidate false [city_validator] (js v).

Definition validate_time_zone (v : option string) : bool :=
  SchemaType.doValidate false [time_zone_validator] (js v).

(** The paths of a message that fail validation. The required
    [creator.id] is always set in a [Creator], so it never fails. *)
Definition validate (this : Message) : list string :=
  userSchema.invalid "creator.name" (validate_creator_name (name (creator this)))
  ++ userSchema.invalid "creator.avatarUrl"
       (validate_creator_avatarUrl (avatarUrl (creator this)))
  ++ userSchema.invalid "text" (validate_text (text this))
  ++ userSchema.invalid "geo.country_name"
       (validate_country_name (country_name (geo this)))
  ++ userSchema.invalid "geo.region_name"
       (validate_region_name (region_name (geo this)))
  ++ userSchema.invalid "geo.city" (validate_city (city (geo this)))
  ++ userSchema.invalid "geo.time_zone"
       (validate_time_zone (time_zone (geo this))).

(** *** The client projection *)

(** [toClient]; [obj] is the plain object that [this.toObject()] returns. *)
Definition toClient (obj : gmap string JsVal) : gmap string JsVal :=
  let obj := <["id" := userSchema.get obj "_id"]> obj in
  let obj := delete "_id" obj in
  obj.

End messageSchema.

(** ** Start-up: the guest user and the default message *)

Module db.

Import userSchema.

(** What a console call prints after its text. *)
Inductive Logged : Type :=
| LogError (err : Error)
| LogUser (user : User)
| LogMessage (message : messageSchema.Message).

(** A start-up program: a tree of calls to mongoose and to the console.
    The callback of a query receives an error ([inl]) or a result
    ([inr]); [findOne] results in [None] for [null]. *)
Inductive Init : Type :=
| Done
| mongoose_connect (dbUri : string) (k : Init)
| User_findOne (conditions : list (string * JsVal))
    (k : Error + option User → Init)
| User_create (doc : JsVal) (k : Error + User → Init)
| Message_create (doc : JsVal) (k : Error + messageSchema.Message → Init)
| console_error (text : string) (arg : Logged) (k : Init)
| console_info (text : string) (arg : Logged) (k : Init).

(** The document [initialize] hands to [db.User.create]. *)
Definition guest_doc : JsVal :=
  VObject [("username", VString "guestuser");
           ("name", VString "guest");
           ("passports",
            VArray [VObject [("type", VString "local");
                             ("password", VString "guestuser")]])].

(** The document [initialize] hands to [db.Message.create]. *)
Definition default_message_doc (user : User) : JsVal :=
  VObject [("creator",
            VObject [("id", VObjectId (_id user));
                     ("name", js (name user));
                     ("avatarUrl", js (avatarUrl user))]);
           ("text", VString "Hello friend !!")].

Definition initialize (dbUri : string) : Init :=
  mongoose_connect dbUri
    (User_findOne [("username", VString "guestuser")]
       (λ found,
          match found with
          | inl err =>
              console_error "failed to check guest user existence: "
                (LogError err) Done
          | inr (Some _) => Done
          | inr None =>
              User_create guest_doc
                (λ created,
                   match created with
                   | inl err =>
                       console_error "failed to create guest user: "
                         (LogError err) Done
                   | inr user =>
                       console_info "guest user created: " (LogUser user)
                         (Message_create (default_message_doc user)
                            (λ posted,
                               match posted with
                               | inl err =>
                                   console_error
                                     "failed to create default message: "
                                     (LogError err) Done
                               | inr message =>
                                   console_info "default message created: "
                                     (LogMessage message) Done
                               end))
                   end)
          end)).

(** The calls a start-up has made, oldest first. *)
Inductive Op : Type :=
| OpConnect (dbUri : string)
| OpFindOne (conditions : list (string * JsVal))
| OpCreateUser (doc : JsVal)
| OpCreateMessage (doc : JsVal)
| OpError (text : string) (arg : Logged)
| OpInfo (text : string) (arg : Logged).

(** What the storage layer answers. *)
Record Storage : Type := {
  findOne_answer : list (string * JsVal) → Error + option User;
  create_user_answer : JsVal → Error + User;
  create_message_answer : JsVal → Error + messageSchema.Message
}.

Fixpoint run (st : Storage) (p : Init) : list Op :=
  match p with
  | Done => []
  | mongoose_connect dbUri k => OpConnect dbUri :: run st k
  | User_findOne conditions k =>
      OpFindOne conditions :: run st (k (findOne_answer st conditions))
  | User_create doc k =>
      OpCreateUser doc :: run st (k (create_user_answer st doc))
  | Message_create doc k =>
      OpCreateMessage doc :: run st (k (create_message_answer st doc))
  | console_error text arg k => OpError text arg :: run st k
  | console_info text arg k => OpInfo text arg :: run st k
  end.

Definition is_create (op : Op) : bool :=
  match op with
  | OpCreateUser _ | OpCreateMessage _ => true
  | _ => false
  end.

End db.

(** ** The properties under study, and sample data *)

Module UserClaims.

Import userSchema.

(** The first step of the pre-save hook: [if (!this.name) this.name =
    this.username]. *)
Definition with_default_name (this : User) : User :=
  if js_not (js (name this)) then set_name (username this) this else this.

(** The error of a save without a local passport: a [ValidationError]
    whose [errors.passports] reports the passports the document has. *)
Definition MissingLocalPassport (this : User) : SaveError :=
  ValidationError
    {[ "passports" :=
         mkValidatorError "passports"
           ("at least a passport of type " +:+ JsString.dquote +:+ "local"
            +:+ JsString.dquote +:+ " is required")
           "notvalid" (passports_value this) ]}.

(** The error of a save whose local passport has no password: a
    [ValidationError] whose [errors.password] reports the field. *)
Definition MissingPassword (lp : Passport.t) : SaveError :=
  ValidationError
    {[ "password" :=
         mkValidatorError "password" "password is required" "notvalid"
           (js (Passport.password lp)) ]}.

(** What the hook prints once it has found the local passport. *)
Definition presave_info (lp : Passport.t) : Call :=
  CallInfo [VString "presave localPassport"; Passport.toObject lp].

Definition presave_password_info (lp : Passport.t) : Call :=
  CallInfo [VString "presave localPassport.password";
            js (Passport.password lp)].

(** "Saving twice without modifying the password hashes once": two
    successful saves in a row, the second on the document the first one
    left, make one [bcrypt.hash] call and the second leaves the
    passports as they were. *)
Definition resave_hashes_once (env : Env) (this : User) : Prop :=
  ∀ this1 log1 this2 log2,
    run env [] (save this) = ((this1, None), log1) →
    run env log1 (save this1) = ((this2, None), log2) →
    length (hash_calls log2) = 1%nat ∧ passports this2 = passports this1.

(** "Both variants return the boolean false when the user has no local
    passport or the plaintext is empty." *)
Definition verify_returns_false (this : User) (password : option string)
    : Prop :=
  getPassportByType this "local" = None ∨ truthy (js password) = false →
  verifyPassword this password = Ret (inr false)
  ∧ verifyPasswordSync this password = Ret (inr (VBool false)).

(** Sample data: the user of the specification's example, and a bcrypt
    whose digest is a fixed prefix followed by the data. *)
Definition alice_passport : Passport.t :=
  Passport.mk "p1" (Some "local") (Some "s3cret") None None.

Definition alice : User :=
  mkUser "u1" (Some "alice") None [alice_passport] (Some "/avatar/default")
    None None None.

Definition bob_passport : Passport.t :=
  Passport.mk "p2" (Some "facebook") None (Some "token") (Some "42").

Definition bob : User :=
  mkUser "u2" (Some "bob") None [bob_passport] (Some "/avatar/default")
    None None None.

Definition carol_passport : Passport.t :=
  Passport.mk "p3" (Some "local") None None None.

Definition carol : User :=
  mkUser "u3" (Some "carol") (Some "") [bob_passport; carol_passport]
    (Some "/avatar/default") None None None.

Definition toy_bcrypt : Env :=
  {| hash_answer := λ _ data _,
       match data with
       | VString s => inr ("$2b$10$" +:+ s)
       | _ => inl "data and salt arguments required"
       end;
     compare_answer := λ _ data encrypted,
       match data, encrypted with
       | VString s, VString h => inr (bool_decide (h = "$2b$10$" +:+ s))
       | _, _ => inl "data and hash arguments required"
       end |}.

End UserClaims.

Module MessageClaims.

Import messageSchema.

(** The age of a message in whole seconds, as [friendlyTimestamp] rounds
    it. *)
Definition delta (now : Z) (this : Message) : Z :=
  Math_round (inject_Z (now - createdAt this) / inject_Z 1000)%Q.

Definition minute : Z := 60.
Definition hour : Z := 3600.
Definition day : Z := 86400.
Definition week : Z := 604800.

(** Sample data: a message created at the epoch, without and with
    geolocation. *)
Definition guest : Creator := mkCreator "u1" (Some "guest") None.

Definition hello : Message :=
  mkMessage "m1" guest (Some "Hello friend !!") (mkGeo None None None None) 0 0.

Definition from_paris : Message :=
  mkMessage "m2" guest (Some "Bonjour")
    (mkGeo (Some "France") (Some "Ile-de-France") (Some "Paris")
       (Some "Europe/Paris")) 0 0.

Definition from_athens : Message :=
  mkMessage "m3" guest (Some "Kalimera")
    (mkGeo (Some "Greece") (Some "Attica") (Some "Athens") None) 0 0.

End MessageClaims.

(** ** Further conditions and sample data *)

Module Conditions.

Import userSchema.

(** A string made of white space only (the empty string included). *)
Fixpoint blank (s : string) : bool :=
  match s with
  | EmptyString => true
  | String c s' => JsString.is_white_space c && blank s'
  end.

(** A passport whose every path passes its validators. *)
Definition passport_ok (p : Passport.t) : Prop :=
  (∃ t, Passport.type p = Some t ∧ t ∈ passport_types)
  ∧ (∀ pw, Passport.password p = Some pw → (String.length pw ≤ 63)%nat).

(** Sample data: a user with a name of its own and two local passports. *)
Definition dave_first : Passport.t :=
  Passport.mk "p4" (Some "local") (Some "hunter2") None None.

Definition dave_second : Passport.t :=
  Passport.mk "p5" (Some "local") None None None.

Definition dave : User :=
  mkUser "u4" (Some "dave") (Some "David") [dave_first; dave_second]
    (Some "/avatar/dave") (Some 1000) (Some 2000) (Some 0).

(** "A user that has a local passport whose password is empty is rejected
    for the missing password before bcrypt is called": any local passport
    of the user, wherever it stands among the passports. *)
Definition empty_local_password_rejected (env : Env) (this : User) : Prop :=
  (∃ p, p ∈ passports this
        ∧ Passport.type p = Some "local"
        ∧ truthy (js (Passport.password p)) = false) →
  ∃ this' lp log',
    run env [] (beforeSave this)
    = ((this', Some (UserClaims.MissingPassword lp)), log')
    ∧ bcrypt_calls log' = [].

(** A bcrypt that reports an error for every digest asked of it. *)
Definition failing_bcrypt : Env :=
  {| hash_answer := λ _ _ _, inl "not enough entropy";
     compare_answer := λ _ _ _, inl "not enough entropy" |}.

(** A required text of 1 to 255 characters, and an optional one of at most
    255. *)
Definition text_1_to_255 (v : option string) : Prop :=
  ∃ s, v = Some s ∧ (1 ≤ String.length s ≤ 255)%nat.

Definition text_up_to_255 (v : option string) : Prop :=
  ∀ s, v = Some s → (String.length s ≤ 255)%nat.

(** Sample storage layers: an empty one that stores what it is given, one
    that already holds the guest user, and one that cannot store users. *)
Definition stored_guest : User :=
  mkUser "u0" (Some "guestuser") (Some "guest")
    [Passport.mk "p0" (Some "local") (Some "$2b$10$guestuser") None None]
    (Some "/avatar/default") (Some 0) (Some 0) (Some 0).

Definition stored_message : messageSchema.Message :=
  messageSchema.mkMessage "m0"
    (messageSchema.mkCreator "u0" (Some "guest") (Some "/avatar/default"))
    (Some "Hello friend !!") (messageSchema.mkGeo None None None None) 0 0.

Definition empty_storage : db.Storage :=
  {| db.findOne_answer := λ _, inr None;
     db.create_user_answer := λ _, inr stored_guest;
     db.create_message_answer := λ _, inr stored_message |}.

Definition seeded_storage : db.Storage :=
  {| db.findOne_answer := λ _, inr (Some stored_guest);
     db.create_user_answer := λ _, inl "duplicate key";
     db.create_message_answer := λ _, inr stored_message |}.

End Conditions.

(** ** Basic facts about values and logs *)

Lemma truthy_js_length (v : option string) :
  truthy (js v) = (0 <? js_length (js v)).
Proof.
  destruct v as [s|]; [|reflexivity].
  cbn. destruct (String.length s); reflexivity.
Qed.

Lemma truthy_js_non_empty (v : option string) :
  truthy (js v) = true ↔ non_empty v.
Proof.
  unfold non_empty. split.
  - destruct v as [[|c s]|]; cbn; intros H; try discriminate.
    exists (String c s). split; [reflexivity | discriminate].
  - intros (s & -> & Hs). destruct s; [contradiction | reflexivity].
Qed.

Lemma falsy_js (v : option string) :
  truthy (js v) = false ↔ v = None ∨ v = Some "".
Proof.
  destruct v as [[|c s]|]; cbn; split; intros H; auto;
    try discriminate; destruct H as [H|H]; discriminate.
Qed.

Lemma hash_calls_app (l1 l2 : list Call) :
  hash_calls (l1 ++ l2) = hash_calls l1 ++ hash_calls l2.
Proof. apply List.filter_app. Qed.

Lemma bcrypt_calls_app (l1 l2 : list Call) :
  bcrypt_calls (l1 ++ l2) = bcrypt_calls l1 ++ bcrypt_calls l2.
Proof. apply List.filter_app. Qed.

(** ** The user schema: validation *)

Module UserSpec.

Import userSchema UserClaims.

(** The username validator alone, on a string. *)
Lemma username_validator_string (s : string) :
  SchemaType.validator_ok (username_validator (VString s))
  = (0 <? Z.of_nat (String.length s)) && (Z.of_nat (String.length s) <? 32).
Proof.
  destruct s as [|c s]; [reflexivity|].
  unfold username_validator, js_and.
  cbn [truthy js_length String.length Nat.eqb negb].
  replace (0 <? Z.of_nat (S (String.length s))) with true
    by (symmetry; apply Z.ltb_lt; lia).
  cbn [truthy andb SchemaType.validator_ok].
  destruct (Z.of_nat (S (String.length s)) <? 32); reflexivity.
Qed.

Lemma validate_username_string (s : string) :
  validate_username (Some s)
  = bool_decide (1 ≤ String.length s ≤ 31)%nat.
Proof.
  unfold validate_username, SchemaType.doValidate.
  cbn [js forallb SchemaType.checkRequired].
  rewrite username_validator_string, andb_true_r.
  destruct (String.length s) as [|n]; [reflexivity|].
  cbn [Nat.eqb negb andb].
  replace (0 <? Z.of_nat (S n)) with true by (symmetry; apply Z.ltb_lt; lia).
  cbn [andb]. case_bool_decide as Hn.
  - apply Z.ltb_lt. lia.
  - apply Z.ltb_ge. lia.
Qed.

(** A document without username is rejected: the path is required. *)
Lemma validate_username_undefined : validate_username None = false.
Proof. reflexivity. Qed.

(** C6. Whatever string is assigned to [username], the path holds the
    string trimmed, and validation of the path succeeds exactly when the
    trimmed string has between 1 and 31 characters; it fails exactly when
    it has none or at least 32. *)
Theorem username_validation_by_length (raw : string) (this : User) :
  let v := JsString.trim raw in
  username (set_username raw this) = Some v
  ∧ (validate_username (username (set_username raw this)) = true
     ↔ (1 ≤ String.length v ≤ 31)%nat)
  ∧ (validate_username (username (set_username raw this)) = false
     ↔ (String.length v = 0 ∨ 32 ≤ String.length v)%nat).
Proof.
  intros v. split; [reflexivity|].
  change (username (set_username raw this)) with (Some v).
  rewrite validate_username_string. split.
  - apply bool_decide_eq_true.
  - rewrite bool_decide_eq_false. lia.
Qed.

(** A document the validation step accepts has a valid [username]. *)
Lemma validate_reports_username (this : User) :
  validate this = [] → validate_username (username this) = true.
Proof.
  unfold validate, invalid. destruct (validate_username (username this));
    [reflexivity | discriminate].
Qed.

(** *** The client projection *)

Lemma set_field_lookup_ne (k k' : string) (v : option JsVal)
    (obj : gmap string JsVal) :
  k ≠ k' → set_field k v obj !! k' = obj !! k'.
Proof.
  intros Hne. destruct v as [x|]; cbn; [|reflexivity].
  by rewrite lookup_insert_ne.
Qed.

Lemma toObject_lookup_id (this : User) :
  toObject this !! "_id" = Some (VObjectId (_id this)).
Proof.
  unfold toObject.
  rewrite !set_field_lookup_ne by discriminate.
  rewrite lookup_insert_ne by discriminate.
  rewrite !set_field_lookup_ne by discriminate.
  apply lookup_insert_eq.
Qed.

(** [toObject] does expose the passports: the projection has to drop
    them. *)
Lemma toObject_lookup_passports (this : User) :
  toObject this !! "passports" = Some (passports_value this).
Proof.
  unfold toObject.
  rewrite !set_field_lookup_ne by discriminate.
  apply lookup_insert_eq.
Qed.

(** C2. The client projection of any user has the key [id], holding the
    internal identifier, and has neither the key [passports] nor the key
    [_id]. The projection is a total function of the document: it calls
    nothing, fails on no input and returns no changed document. *)
Theorem toClient_id_without_passports (this : User) :
  toClient this !! "id" = Some (VObjectId (_id this))
  ∧ toClient this !! "passports" = None
  ∧ toClient this !! "_id" = None.
Proof.
  unfold toClient, get. split_and!.
  - rewrite !lookup_delete_ne by discriminate.
    rewrite lookup_insert_eq, toObject_lookup_id. reflexivity.
  - apply lookup_delete_eq.
  - rewrite lookup_delete_ne by discriminate. apply lookup_delete_eq.
Qed.

(** Every other key of the plain object reaches the client unchanged. *)
Lemma toClient_other_keys (this : User) (k : string) :
  k ≠ "id" → k ≠ "_id" → k ≠ "passports" →
  toClient this !! k = toObject this !! k.
Proof.
  intros Hid H_id Hpass. unfold toClient.
  rewrite !lookup_delete_ne by congruence.
  by rewrite lookup_insert_ne by congruence.
Qed.

(** *** The pre-save hook, step by step *)

Lemma passports_with_default_name (this : User) :
  passports (with_default_name this) = passports this.
Proof. unfold with_default_name. by destruct (js_not (js (name this))). Qed.

Lemma username_with_default_name (this : User) :
  username (with_default_name this) = username this.
Proof. unfold with_default_name. by destruct (js_not (js (name this))). Qed.

(** The hook, with its first step named. *)
Lemma beforeSave_steps (this : User) :
  beforeSave this =
  match getPassportByType this "local" with
  | None => Ret (with_default_name this, Some (MissingLocalPassport this))
  | Some (i, lp) =>
      console_info [VString "presave localPassport"; Passport.toObject lp]
        (if js_not (js (Passport.password lp)) then
           console_info [VString "presave localPassport.password";
                         js (Passport.password lp)]
             (Ret (with_default_name this, Some (MissingPassword lp)))
         else
           bcrypt_hash (js (Passport.password lp)) 10
             (λ r, match r with
                   | inl err =>
                       Ret (with_default_name this, Some (HashError err))
                   | inr hash =>
                       Ret (set_localPassport_password i hash
                              (with_default_name this), None)
                   end))
  end.
Proof.
  unfold beforeSave, with_default_name, getPassportByType,
    MissingLocalPassport, MissingPassword, passports_value.
  destruct (js_not (js (name this))); reflexivity.
Qed.

Lemma no_local_passport (this : User) :
  Forall (λ p, Passport.type p ≠ Some "local") (passports this) →
  getPassportByType this "local" = None.
Proof. intros Hall. by apply list_find_None. Qed.

(** C3. When no passport of the user has type [local], the hook ends at
    once with the error for a missing local passport: it is a returned
    value, so nothing is printed, the password is not looked at and bcrypt
    is not called. The same holds of a whole save that gets as far as the
    hook. *)
Theorem save_without_local_passport (this : User) :
  Forall (λ p, Passport.type p ≠ Some "local") (passports this) →
  beforeSave this
  = Ret (with_default_name this, Some (MissingLocalPassport this))
  ∧ (validate this = [] →
     save this
     = Ret (with_default_name this, Some (MissingLocalPassport this))).
Proof.
  intros Hall. apply no_local_passport in Hall.
  assert (beforeSave this
          = Ret (with_default_name this, Some (MissingLocalPassport this)))
    as Hhook by (by rewrite beforeSave_steps, Hall).
  split; [exact Hhook|].
  intros Hvalid. unfold save. by rewrite Hvalid.
Qed.

Lemma save_without_local_passport_witness :
  Forall (λ p, Passport.type p ≠ Some "local") (passports bob)
  ∧ beforeSave bob
    = Ret (with_default_name bob, Some (MissingLocalPassport bob))
  ∧ save bob = Ret (with_default_name bob, Some (MissingLocalPassport bob)).
Proof.
  assert (Forall (λ p, Passport.type p ≠ Some "local") (passports bob))
    as Hall by (repeat constructor; discriminate).
  split_and!.
  - exact Hall.
  - exact (proj1 (save_without_local_passport bob Hall)).
  - exact (proj2 (save_without_local_passport bob Hall) eq_refl).
Defined.

(** The local passport of a user is the first passport of type [local]. *)
Lemma first_local_passport (this : User) (i : nat) (lp : Passport.t) :
  passports this !! i = Some lp →
  Passport.type lp = Some "local" →
  (∀ j p, passports this !! j = Some p → (j < i)%nat →
          Passport.type p ≠ Some "local") →
  getPassportByType this "local" = Some (i, lp).
Proof.
  intros Hi Hlp Hbefore. apply list_find_Some. split_and!; [done..|].
  intros j p Hj Hlt. by apply Hbefore with j.
Qed.

(** C4, amended. When the local passport the hook locates, the first
    passport of type [local], has an empty password (absent or the empty
    string), the hook prints its two messages and ends with the error for
    a missing password; whatever bcrypt would answer, no call to it is
    made. *)
Theorem save_with_empty_password (this : User) (i : nat) (lp : Passport.t)
    (env : Env) (log : list Call) :
  getPassportByType this "local" = Some (i, lp) →
  truthy (js (Passport.password lp)) = false →
  run env log (beforeSave this)
  = ((with_default_name this, Some (MissingPassword lp)),
     log ++ [presave_info lp; presave_password_info lp])
  ∧ bcrypt_calls (run env log (beforeSave this)).2 = bcrypt_calls log.
Proof.
  intros Hlocal Hempty.
  assert (run env log (beforeSave this)
          = ((with_default_name this, Some (MissingPassword lp)),
             log ++ [presave_info lp; presave_password_info lp])) as Hrun.
  { rewrite beforeSave_steps, Hlocal. unfold js_not. rewrite Hempty.
    cbn [run negb]. by rewrite <- app_assoc. }
  split; [exact Hrun|].
  rewrite Hrun. cbn [snd]. rewrite bcrypt_calls_app. cbn. apply app_nil_r.
Qed.

Lemma save_with_empty_password_witness :
  getPassportByType carol "local" = Some (1%nat, carol_passport)
  ∧ truthy (js (Passport.password carol_passport)) = false
  ∧ run toy_bcrypt [] (beforeSave carol)
    = ((with_default_name carol, Some (MissingPassword carol_passport)),
       [presave_info carol_passport; presave_password_info carol_passport]).
Proof.
  split_and!; [reflexivity..|].
  exact (proj1 (save_with_empty_password carol 1 carol_passport toy_bcrypt []
                  eq_refl eq_refl)).
Defined.

(** *** Password verification *)

(** C5. On the empty plaintext, and on a user without local passport,
    [verifyPassword] hands the boolean [false] to its callback, while
    [verifyPasswordSync] returns the falsy operand of its [&&] chain: the
    empty string in the first case, [undefined] in the second. *)
Theorem verifyPasswordSync_falsy_operand :
  verifyPassword alice (Some "") = Ret (inr false)
  ∧ verifyPasswordSync alice (Some "") = Ret (inr (VString ""))
  ∧ verifyPassword bob (Some "s3cret") = Ret (inr false)
  ∧ verifyPasswordSync bob (Some "s3cret") = Ret (inr VUndefined).
Proof. by split_and!. Qed.

(** So the two variants do not both return the boolean [false] there. *)
Lemma verifyPasswordSync_returns_operand :
  ¬ verify_returns_false alice (Some "").
Proof.
  unfold verify_returns_false. intros Hclaim.
  destruct Hclaim as [_ Hsync]; [right; reflexivity|].
  discriminate Hsync.
Qed.

(** The two variants, case by case. When the user has no local passport
    or the plaintext is empty, [verifyPassword] hands [false] to its
    callback and [verifyPasswordSync] returns a falsy value; both are
    returned values, so bcrypt is not called. In the other case each
    variant is the call to its bcrypt comparison on the plaintext and the
    stored password, and its result is what that call gives. *)
Theorem verifyPassword_short_circuit (this : User)
    (password : option string) :
  (getPassportByType this "local" = None ∨ truthy (js password) = false →
   verifyPassword this password = Ret (inr false)
   ∧ ∃ v, verifyPasswordSync this password = Ret (inr v)
          ∧ truthy v = false
          ∧ v = if truthy (js password) then VUndefined else js password)
  ∧ (∀ i lp,
       getPassportByType this "local" = Some (i, lp) →
       truthy (js password) = true →
       verifyPassword this password
       = bcrypt_compare (js password) (js (Passport.password lp)) Ret
       ∧ verifyPasswordSync this password
         = bcrypt_compareSync (js password) (js (Passport.password lp))
             (λ r, Ret (sum_map id VBool r))).
Proof.
  unfold verifyPassword, verifyPasswordSync. split.
  - intros [Hnone | Hempty].
    + rewrite Hnone. destruct (truthy (js password)) eqn:Hpw.
      * split; [reflexivity|]. by exists VUndefined.
      * split; [reflexivity|]. by exists (js password).
    + rewrite Hempty. split; [reflexivity|]. by exists (js password).
  - intros i lp Hlocal Hpw. by rewrite Hlocal, Hpw.
Qed.

Lemma verifyPassword_short_circuit_witness :
  verifyPassword alice (Some "") = Ret (inr false)
  ∧ verifyPasswordSync alice (Some "") = Ret (inr (VString ""))
  ∧ verifyPasswordSync bob (Some "s3cret") = Ret (inr VUndefined)
  ∧ run toy_bcrypt [] (verifyPasswordSync alice (Some "s3cret"))
    = (inr (VBool false), [CallCompareSync (VString "s3cret") (VString "s3cret")]).
Proof.
  destruct (proj1 (verifyPassword_short_circuit alice (Some ""))
              (or_intror eq_refl)) as (Hasync & v & Hsync & _ & ->).
  destruct (proj1 (verifyPassword_short_circuit bob (Some "s3cret"))
              (or_introl eq_refl)) as (_ & w & Hsync' & _ & ->).
  destruct (proj2 (verifyPassword_short_circuit alice (Some "s3cret"))
              0%nat alice_passport eq_refl eq_refl) as (_ & Hdelegate).
  split_and!; [exact Hasync | exact Hsync | exact Hsync' |].
  rewrite Hdelegate. reflexivity.
Defined.

(** *** Running the hook *)

(** The outcome of the hook under any bcrypt, case by case. *)
Lemma run_beforeSave (env : Env) (log : list Call) (this : User) :
  run env log (beforeSave this) =
  match getPassportByType this "local" with
  | None => ((with_default_name this, Some (MissingLocalPassport this)), log)
  | Some (i, lp) =>
      if truthy (js (Passport.password lp)) then
        match hash_answer env (log ++ [presave_info lp])
                (js (Passport.password lp)) 10 with
        | inl err =>
            ((with_default_name this, Some (HashError err)),
             log ++ [presave_info lp; CallHash (js (Passport.password lp)) 10])
        | inr hash =>
            ((set_localPassport_password i hash (with_default_name this),
              None),
             log ++ [presave_info lp; CallHash (js (Passport.password lp)) 10])
        end
      else
        ((with_default_name this, Some (MissingPassword lp)),
         log ++ [presave_info lp; presave_password_info lp])
  end.
Proof.
  rewrite beforeSave_steps.
  destruct (getPassportByType this "local") as [[i lp]|]; [|reflexivity].
  unfold js_not, presave_info, presave_password_info.
  destruct (truthy (js (Passport.password lp))); cbn [run negb].
  - destruct (hash_answer env _ (js (Passport.password lp)) 10);
      cbn [run]; by rewrite <- app_assoc.
  - by rewrite <- app_assoc.
Qed.

Lemma name_set_localPassport_password (i : nat) (hash : string)
    (this : User) :
  name (set_localPassport_password i hash this) = name this.
Proof. reflexivity. Qed.

Lemma name_with_default_name (this : User) :
  truthy (js (name this)) = false →
  name (with_default_name this) = username this.
Proof. intros Hname. unfold with_default_name, js_not. by rewrite Hname. Qed.

Lemma with_default_name_id (this : User) :
  truthy (js (name this)) = true → with_default_name this = this.
Proof. intros Hname. unfold with_default_name, js_not. by rewrite Hname. Qed.

(** Whatever the hook decides, the document it leaves has the name of
    [with_default_name]. *)
Lemma name_after_beforeSave (env : Env) (log : list Call) (this : User) :
  name (run env log (beforeSave this)).1.1 = name (with_default_name this).
Proof.
  rewrite run_beforeSave.
  destruct (getPassportByType this "local") as [[i lp]|]; [|reflexivity].
  destruct (truthy (js (Passport.password lp))); [|reflexivity].
  by destruct (hash_answer env (log ++ [presave_info lp])
                 (js (Passport.password lp)) 10).
Qed.

(** A save that succeeds passed validation and then the hook. *)
Lemma save_success (env : Env) (log : list Call) (this this' : User)
    (log' : list Call) :
  run env log (save this) = ((this', None), log') →
  validate this = [] ∧ run env log (beforeSave this) = ((this', None), log').
Proof.
  unfold save. destruct (validate this) as [|path paths].
  - intros Hrun. by split.
  - cbn [run]. discriminate.
Qed.

Lemma valid_username_non_empty (this : User) :
  validate this = [] → non_empty (username this).
Proof.
  intros Hvalid%validate_reports_username.
  destruct (username this) as [s|]; [|discriminate].
  rewrite validate_username_string in Hvalid.
  apply bool_decide_eq_true in Hvalid.
  exists s. split; [reflexivity|]. intros ->. cbn in Hvalid. lia.
Qed.

(** C7. For a user whose name is empty (absent or the empty string) the
    hook leaves [name] equal to [username] on every path it can take, the
    failing ones included: the assignment is its first step. A save that
    succeeds therefore persists a non-empty name equal to the username. *)
Theorem save_defaults_name (this : User) (env : Env) (log : list Call) :
  truthy (js (name this)) = false →
  name (run env log (beforeSave this)).1.1 = username this
  ∧ (∀ this' log',
       run env log (save this) = ((this', None), log') →
       name this' = username this ∧ non_empty (name this')).
Proof.
  intros Hname.
  assert (name (run env log (beforeSave this)).1.1 = username this) as Hhook.
  { rewrite name_after_beforeSave. by apply name_with_default_name. }
  split; [exact Hhook|].
  intros this' log' (Hvalid & Hrun)%save_success.
  rewrite Hrun in Hhook. cbn in Hhook. split; [exact Hhook|].
  rewrite Hhook. by apply valid_username_non_empty.
Qed.

Lemma save_defaults_name_witness :
  truthy (js (name alice)) = false
  ∧ name (run toy_bcrypt [] (save alice)).1.1 = Some "alice"
  ∧ non_empty (name (run toy_bcrypt [] (save alice)).1.1).
Proof.
  split; [reflexivity|].
  exact (proj2 (save_defaults_name alice toy_bcrypt [] eq_refl) _ _ eq_refl).
Defined.

(** A name that is supplied is kept. *)
Lemma save_keeps_name (this : User) (env : Env) (log : list Call) :
  truthy (js (name this)) = true →
  name (run env log (beforeSave this)).1.1 = name this.
Proof.
  intros Hname. rewrite name_after_beforeSave.
  by rewrite with_default_name_id.
Qed.

(** C10. The hook is not atomic: for a user whose name is empty, a run
    that ends in an error (a missing local passport, a missing password,
    a failure of bcrypt) still leaves [name] set to [username], so the
    document differs from the one submitted whenever it has a username. *)
Theorem rejected_save_keeps_default_name (this : User) (env : Env)
    (log : list Call) (this' : User) (e : SaveError) (log' : list Call) :
  truthy (js (name this)) = false →
  run env log (beforeSave this) = ((this', Some e), log') →
  name this' = username this
  ∧ (non_empty (username this) → name this' ≠ name this).
Proof.
  intros Hname Hrun.
  assert (name this' = username this) as Hset.
  { pose proof (name_after_beforeSave env log this) as Hhook.
    rewrite Hrun in Hhook. cbn in Hhook.
    by rewrite Hhook, name_with_default_name. }
  split; [exact Hset|].
  intros Huser%truthy_js_non_empty Heq.
  rewrite Hset in Heq. rewrite <- Heq, Huser in Hname. discriminate.
Qed.

Lemma rejected_save_keeps_default_name_witness :
  truthy (js (name carol)) = false
  ∧ run toy_bcrypt [] (beforeSave carol)
    = ((with_default_name carol, Some (MissingPassword carol_passport)),
       [presave_info carol_passport; presave_password_info carol_passport])
  ∧ name (with_default_name carol) = Some "carol"
  ∧ name (with_default_name carol) ≠ name carol.
Proof.
  split_and!; [reflexivity..| |].
  - exact (proj1 (rejected_save_keeps_default_name carol toy_bcrypt []
                    _ _ _ eq_refl eq_refl)).
  - apply (proj2 (rejected_save_keeps_default_name carol toy_bcrypt []
                    _ _ _ eq_refl eq_refl)).
    exists "carol". split; [reflexivity | discriminate].
Defined.

(** A user with several local passports, all of them without password, is
    rejected in the same way. *)
Lemma save_with_empty_passwords (this : User) (env : Env) (log : list Call) :
  Exists (λ p, Passport.type p = Some "local") (passports this) →
  Forall (λ p, Passport.type p = Some "local" →
               truthy (js (Passport.password p)) = false) (passports this) →
  ∃ lp, (run env log (beforeSave this)).1
        = (with_default_name this, Some (MissingPassword lp))
        ∧ bcrypt_calls (run env log (beforeSave this)).2 = bcrypt_calls log.
Proof.
  intros Hsome Hall.
  destruct (getPassportByType this "local") as [[i lp]|] eqn:Hlocal.
  - pose proof Hlocal as (Hi & Hlp & _)%list_find_Some.
    rewrite Forall_lookup in Hall. specialize (Hall i lp Hi Hlp).
    rewrite run_beforeSave, Hlocal, Hall. exists lp.
    split; [reflexivity|]. cbn [snd].
    rewrite bcrypt_calls_app. cbn. apply app_nil_r.
  - apply list_find_None in Hlocal. apply Exists_exists in Hsome.
    destruct Hsome as (p & Hp & Hlp). rewrite Forall_forall in Hlocal.
    by destruct (Hlocal p Hp).
Qed.

(** *** Saving twice *)

(** A successful run of the hook found a local passport with a password,
    called [bcrypt.hash] on it once and stored the trimmed digest. *)
Lemma run_beforeSave_success (env : Env) (log : list Call)
    (this this1 : User) (log1 : list Call) :
  run env log (beforeSave this) = ((this1, None), log1) →
  ∃ i lp digest,
    getPassportByType this "local" = Some (i, lp)
    ∧ truthy (js (Passport.password lp)) = true
    ∧ hash_answer env (log ++ [presave_info lp])
        (js (Passport.password lp)) 10 = inr digest
    ∧ this1 = set_localPassport_password i digest (with_default_name this)
    ∧ log1 = log ++ [presave_info lp; CallHash (js (Passport.password lp)) 10].
Proof.
  rewrite run_beforeSave.
  destruct (getPassportByType this "local") as [[i lp]|]; [|discriminate].
  destruct (truthy (js (Passport.password lp))) eqn:Hpw; [|discriminate].
  destruct (hash_answer env (log ++ [presave_info lp])
              (js (Passport.password lp)) 10) as [err|digest] eqn:Hhash;
    [discriminate|].
  intros [= <- <-]. by exists i, lp, digest.
Qed.

(** Storing the digest keeps the local passport where it was. *)
Lemma getPassportByType_after_hash (this : User) (i : nat)
    (lp : Passport.t) (digest : string) :
  getPassportByType this "local" = Some (i, lp) →
  getPassportByType
    (set_localPassport_password i digest (with_default_name this)) "local"
  = Some (i, Passport.set_password digest lp).
Proof.
  unfold getPassportByType, set_localPassport_password.
  cbn [passports set_passports]. rewrite passports_with_default_name.
  intros (Hi & Hlp & Hbefore)%list_find_Some.
  apply list_find_Some. split_and!.
  - by rewrite list_lookup_alter_eq, Hi.
  - exact Hlp.
  - intros j p Hj Hlt.
    rewrite list_lookup_alter_ne in Hj by lia. by apply Hbefore with j.
Qed.

(** Every successful save calls [bcrypt.hash] exactly once, on the
    password the local passport holds when the save starts. *)
Lemma save_hashes_once (env : Env) (log : list Call) (this this1 : User)
    (log1 : list Call) :
  run env log (save this) = ((this1, None), log1) →
  ∃ i lp digest,
    getPassportByType this "local" = Some (i, lp)
    ∧ getPassportByType this1 "local"
      = Some (i, Passport.set_password digest lp)
    ∧ hash_answer env (log ++ [presave_info lp])
        (js (Passport.password lp)) 10 = inr digest
    ∧ hash_calls log1
      = hash_calls log ++ [CallHash (js (Passport.password lp)) 10].
Proof.
  intros (_ & Hrun)%save_success.
  apply run_beforeSave_success in Hrun
    as (i & lp & digest & Hlocal & _ & Hhash & -> & ->).
  exists i, lp, digest. split_and!; [done | | done |].
  - by apply getPassportByType_after_hash.
  - by rewrite hash_calls_app.
Qed.

(** C1, as stated, fails: saving the sample user twice in a row calls
    [bcrypt.hash] twice, and the second save stores a new digest. *)
Lemma resave_hashes_twice : ¬ resave_hashes_once toy_bcrypt alice.
Proof.
  unfold resave_hashes_once. intros Hclaim.
  destruct (Hclaim _ _ _ _ eq_refl eq_refl) as [Hcalls _].
  vm_compute in Hcalls. discriminate Hcalls.
Qed.

(** C1, amended. Of two successful saves in a row, the second on the
    document the first one left, each calls [bcrypt.hash] exactly once:
    the first on the password submitted, the second on the digest the
    first one stored. The second save stores what bcrypt answers to that
    second call, the digest of a digest. *)
Theorem resave_hashes_the_digest (env : Env) (log : list Call)
    (this this1 : User) (log1 : list Call) (this2 : User)
    (log2 : list Call) :
  run env log (save this) = ((this1, None), log1) →
  run env log1 (save this1) = ((this2, None), log2) →
  ∃ i lp digest1 digest2,
    getPassportByType this "local" = Some (i, lp)
    ∧ getPassportByType this1 "local"
      = Some (i, Passport.set_password digest1 lp)
    ∧ getPassportByType this2 "local"
      = Some (i, Passport.set_password digest2 lp)
    ∧ hash_calls log2
      = hash_calls log
        ++ [CallHash (js (Passport.password lp)) 10;
            CallHash (VString (JsString.trim digest1)) 10]
    ∧ hash_answer env
        (log1 ++ [presave_info (Passport.set_password digest1 lp)])
        (VString (JsString.trim digest1)) 10 = inr digest2.
Proof.
  intros (i & lp & digest1 & Hlocal & Hlocal1 & _ & Hcalls1)%save_hashes_once
         (i' & lp' & digest2 & Hlocal1' & Hlocal2 & Hhash2 & Hcalls2)
           %save_hashes_once.
  rewrite Hlocal1 in Hlocal1'. injection Hlocal1' as <- <-.
  exists i, lp, digest1, digest2. split_and!; [done.. | | | done].
  - exact Hlocal2.
  - rewrite Hcalls2, Hcalls1, <- app_assoc. reflexivity.
Qed.

Lemma resave_hashes_the_digest_witness :
  let first := run toy_bcrypt [] (save alice) in
  let second := run toy_bcrypt first.2 (save first.1.1) in
  first.1.2 = None
  ∧ second.1.2 = None
  ∧ ∃ i lp digest1 digest2,
      getPassportByType alice "local" = Some (i, lp)
      ∧ getPassportByType first.1.1 "local"
        = Some (i, Passport.set_password digest1 lp)
      ∧ getPassportByType second.1.1 "local"
        = Some (i, Passport.set_password digest2 lp)
      ∧ hash_calls second.2
        = hash_calls []
          ++ [CallHash (js (Passport.password lp)) 10;
              CallHash (VString (JsString.trim digest1)) 10]
      ∧ hash_answer toy_bcrypt
          (first.2 ++ [presave_info (Passport.set_password digest1 lp)])
          (VString (JsString.trim digest1)) 10 = inr digest2.
Proof.
  intros first second. split_and!; [reflexivity..|].
  exact (resave_hashes_the_digest toy_bcrypt [] alice first.1.1 first.2
           second.1.1 second.2 eq_refl eq_refl).
Defined.

(** The example of the specification: the sample user is persisted under
    the name of its username, with a digest in place of the password, and
    the password submitted verifies against it. *)
Example alice_saved :
  let saved := (run toy_bcrypt [] (save alice)).1.1 in
  name saved = Some "alice"
  ∧ Passport.password <$> passports saved = [Some "$2b$10$s3cret"]
  ∧ (run toy_bcrypt [] (verifyPassword saved (Some "s3cret"))).1 = inr true
  ∧ (run toy_bcrypt [] (verifyPassword saved (Some "guess"))).1 = inr false.
Proof. by split_and!. Qed.

(** Saved a second time, the sample user can no longer log in. *)
Example resave_breaks_login :
  let first := run toy_bcrypt [] (save alice) in
  let second := run toy_bcrypt first.2 (save first.1.1) in
  second.1.2 = None
  ∧ Passport.password <$> passports second.1.1
    = [Some "$2b$10$$2b$10$s3cret"]
  ∧ (run toy_bcrypt [] (verifyPassword second.1.1 (Some "s3cret"))).1
    = inr false.
Proof. by split_and!. Qed.

Example resave_sample_calls :
  hash_calls
    (run toy_bcrypt (run toy_bcrypt [] (save alice)).2
       (save (run toy_bcrypt [] (save alice)).1.1)).2
  = [CallHash (VString "s3cret") 10; CallHash (VString "$2b$10$s3cret") 10].
Proof. reflexivity. Qed.

End UserSpec.

(** ** The message schema: virtual fields *)

Module MessageSpec.

Import messageSchema MessageClaims.

(** Rounding a distance in milliseconds to seconds, in integers. *)
Lemma Math_round_milliseconds (ms : Z) :
  Math_round (inject_Z ms / inject_Z 1000)%Q = (ms + 500) / 1000.
Proof.
  unfold Math_round, Qfloor, Qdiv, Qmult, Qinv, Qplus, inject_Z.
  cbn [Qnum Qden].
  change (Z.pos (1 * 1000 * 2)) with (1000 * 2).
  change (Z.pos (1 * 1000)) with 1000.
  replace (ms * 1 * 2 + 1 * 1000) with ((ms + 500) * 2) by lia.
  apply Z.div_mul_cancel_r; lia.
Qed.

Lemma delta_milliseconds (now : Z) (this : Message) :
  delta now this = (now - createdAt this + 500) / 1000.
Proof. apply Math_round_milliseconds. Qed.

Lemma friendlyTimestamp_delta (now : Z) (this : Message) :
  friendlyTimestamp now this =
  let delta := delta now this in
  if delta <? 30 then "just now"
  else if delta <? minute then pretty delta +:+ " seconds ago"
  else if delta <? 2 * minute then "a minute ago"
  else if delta <? hour then pretty (delta / minute) +:+ " minutes ago"
  else if delta / hour =? 1 then "1 hour ago"
  else if delta <? day then pretty (delta / hour) +:+ " hours ago"
  else if delta <? day * 2 then "yesterday"
  else if delta <? week then pretty (delta / day) +:+ " days ago"
  else " a long time ago".
Proof. reflexivity. Qed.

Lemma one_hour_bucket (d : Z) :
  hour ≤ d → (d / hour =? 1) = (d <? 2 * hour).
Proof.
  unfold hour. intros Hd.
  destruct (Z.ltb_spec d (2 * 3600)) as [Hlt|Hge].
  - apply Z.eqb_eq. symmetry. apply Z.div_unique with (d - 3600); lia.
  - apply Z.eqb_neq. intros Hone.
    pose proof (Z.mul_div_le d 3600 ltac:(lia)) as Hle.
    pose proof (Z.mod_pos_bound d 3600 ltac:(lia)) as Hmod.
    rewrite Z.mod_eq in Hmod by lia. lia.
Qed.

Ltac bucket :=
  repeat match goal with
    | |- context [?a <? ?b] => destruct (Z.ltb_spec a b); try lia
    end;
  try reflexivity.

(** What [friendlyTimestamp] answers in each range of the age [d], in
    seconds. The last answer begins with a space. *)
Lemma friendlyTimestamp_buckets (now : Z) (this : Message) :
  let d := delta now this in
  (d < 30 → friendlyTimestamp now this = "just now")
  ∧ (30 ≤ d < minute →
     friendlyTimestamp now this = pretty d +:+ " seconds ago")
  ∧ (minute ≤ d < 2 * minute → friendlyTimestamp now this = "a minute ago")
  ∧ (2 * minute ≤ d < hour →
     friendlyTimestamp now this = pretty (d / minute) +:+ " minutes ago")
  ∧ (hour ≤ d < 2 * hour → friendlyTimestamp now this = "1 hour ago")
  ∧ (2 * hour ≤ d < day →
     friendlyTimestamp now this = pretty (d / hour) +:+ " hours ago")
  ∧ (day ≤ d < 2 * day → friendlyTimestamp now this = "yesterday")
  ∧ (2 * day ≤ d < week →
     friendlyTimestamp now this = pretty (d / day) +:+ " days ago")
  ∧ (week ≤ d → friendlyTimestamp now this = " a long time ago").
Proof.
  intros d. rewrite friendlyTimestamp_delta. cbv zeta.
  change (delta now this) with d.
  unfold minute, day, week.
  split_and!; intros Hd; unfold hour in Hd;
    destruct (Z.ltb_spec d 30); try lia; try reflexivity;
    destruct (Z.ltb_spec d 60); try lia; try reflexivity;
    destruct (Z.ltb_spec d (2 * 60)); try lia; try reflexivity;
    destruct (Z.ltb_spec d hour); unfold hour in *; try lia;
      try reflexivity;
    fold hour; rewrite one_hour_bucket by (unfold hour; lia);
    unfold hour; bucket.
Qed.

(** C9: the age of a week or more. The source answers with a leading
    space, which the specified string does not have; the other ranges
    answer as specified ([friendlyTimestamp_buckets]). *)
Theorem friendlyTimestamp_week_old :
  delta 604800000 hello = week
  ∧ friendlyTimestamp 604800000 hello = " a long time ago"
  ∧ friendlyTimestamp 604800000 hello ≠ "a long time ago".
Proof. split_and!; [reflexivity | reflexivity | discriminate]. Qed.

(** The examples of the specification. *)
Example footer_45_seconds : footer 45000 hello = "45 seconds ago".
Proof. reflexivity. Qed.

Example footer_with_location :
  footer 45000 from_paris = "45 seconds ago, Europe/Paris".
Proof. reflexivity. Qed.

Example friendlyTimestamp_rounds_up :
  friendlyTimestamp 29500 hello = "30 seconds ago".
Proof. reflexivity. Qed.

(** *** The location *)

Lemma non_empty_length (v : option string) :
  non_empty v → truthy (js v) = true ∧ 0 < js_length (js v).
Proof.
  intros Hv. pose proof (proj2 (truthy_js_non_empty v) Hv) as Ht.
  split; [exact Ht|]. rewrite truthy_js_length in Ht. by apply Z.ltb_lt.
Qed.

Lemma empty_truthy (v : option string) :
  ¬ non_empty v → truthy (js v) = false.
Proof.
  intros Hv. destruct (truthy (js v)) eqn:Ht; [|reflexivity].
  by apply truthy_js_non_empty in Ht.
Qed.

(** C8. The location is the time zone whenever that is non-empty;
    otherwise the city and the country joined by a slash when both are
    non-empty; otherwise it is undefined. Nothing else of the message,
    the region in particular, has a say. *)
Theorem location_by_preference (this : Message) :
  (non_empty (time_zone (geo this)) →
   location this = time_zone (geo this))
  ∧ (∀ c n,
       ¬ non_empty (time_zone (geo this)) →
       city (geo this) = Some c → c ≠ "" →
       country_name (geo this) = Some n → n ≠ "" →
       location this = Some (c +:+ "/" +:+ n))
  ∧ (¬ non_empty (time_zone (geo this)) →
     ¬ (non_empty (city (geo this)) ∧ non_empty (country_name (geo this))) →
     location this = None)
  ∧ (∀ other,
       time_zone (geo other) = time_zone (geo this) →
       city (geo other) = city (geo this) →
       country_name (geo other) = country_name (geo this) →
       location other = location this).
Proof.
  unfold location. split_and!.
  - intros [Htz Hlen]%non_empty_length.
    apply Z.ltb_lt in Hlen. by rewrite Htz, Hlen.
  - intros c n Htz%empty_truthy Hcity Hc Hcountry Hn.
    rewrite Htz, Hcity, Hcountry. destruct c, n; done.
  - intros Htz%empty_truthy Hnot. rewrite Htz. cbn [andb].
    destruct (truthy (js (country_name (geo this)))) eqn:Hcountry;
      [|reflexivity].
    destruct (truthy (js (city (geo this)))) eqn:Hcity;
      [|by rewrite andb_false_r].
    exfalso. apply Hnot. by split; apply truthy_js_non_empty.
  - intros other -> -> ->. reflexivity.
Qed.

Lemma location_by_preference_witness :
  location from_paris = Some "Europe/Paris"
  ∧ location from_athens = Some "Athens/Greece"
  ∧ location hello = None.
Proof.
  destruct (location_by_preference from_paris) as (Hzone & _).
  destruct (location_by_preference from_athens) as (_ & Hcity & _).
  destruct (location_by_preference hello) as (_ & _ & Hnone & _).
  split_and!.
  - apply Hzone. exists "Europe/Paris". split; [reflexivity | discriminate].
  - apply (Hcity "Athens" "Greece");
      [|reflexivity | discriminate | reflexivity | discriminate].
    intros (s & Hs & _). discriminate Hs.
  - apply Hnone.
    + intros (s & Hs & _). discriminate Hs.
    + intros [(s & Hs & _) _]. discriminate Hs.
Defined.

End MessageSpec.


(** ** The user schema: the other paths and the whole document *)

Module UserFacts.

Import userSchema UserClaims UserSpec Conditions.

(** A validator of the shape [v && v.length > 0 && v.length < n]. *)
Lemma bounded_validator_string (n : Z) (s : string) :
  SchemaType.validator_ok
    (VString s &&& VBool (0 <? js_length (VString s))
               &&& VBool (js_length (VString s) <? n))
  = (0 <? Z.of_nat (String.length s)) && (Z.of_nat (String.length s) <? n).
Proof.
  destruct s as [|c s]; [reflexivity|].
  unfold js_and. cbn [truthy js_length String.length Nat.eqb negb].
  replace (0 <? Z.of_nat (S (String.length s))) with true
    by (symmetry; apply Z.ltb_lt; lia).
  cbn [truthy andb SchemaType.validator_ok].
  destruct (Z.of_nat (S (String.length s)) <? n); reflexivity.
Qed.

Lemma validate_name_string (s : string) :
  validate_name (Some s) = bool_decide (1 ≤ String.length s ≤ 63)%nat.
Proof.
  unfold validate_name, SchemaType.doValidate, name_validator.
  cbn [js forallb]. rewrite bounded_validator_string, andb_true_r.
  cbn [andb]. case_bool_decide as Hn.
  - apply andb_true_iff. split; apply Z.ltb_lt; lia.
  - apply andb_false_iff.
    destruct (decide (String.length s = 0%nat)) as [Hz|Hz].
    + left. apply Z.ltb_ge. lia.
    + right. apply Z.ltb_ge. lia.
Qed.

(** The [name] path accepts a document without name and a name of 1 to 63
    characters; the empty string and longer names are rejected. *)
Theorem name_validation (v : option string) :
  validate_name v = true
  ↔ v = None ∨ ∃ s, v = Some s ∧ (1 ≤ String.length s ≤ 63)%nat.
Proof.
  destruct v as [s|].
  - rewrite validate_name_string, bool_decide_eq_true. split.
    + intros Hlen. right. by exists s.
    + intros [Hnone | (s' & [= <-] & Hlen)]; [discriminate | exact Hlen].
  - split; [by left | reflexivity].
Qed.

Lemma validate_password_string (s : string) :
  validate_password (Some s) = bool_decide (String.length s ≤ 63)%nat.
Proof.
  unfold validate_password, SchemaType.doValidate, password_validator, js_not.
  cbn [js forallb andb SchemaType.validator_ok truthy js_length].
  rewrite andb_true_r.
  destruct s as [|c s]; [reflexivity|].
  cbn [String.length Nat.eqb negb orb].
  replace (0 <? Z.of_nat (S (String.length s))) with true
    by (symmetry; apply Z.ltb_lt; lia).
  cbn [andb]. case_bool_decide as Hn.
  - apply Z.ltb_lt. lia.
  - apply Z.ltb_ge. lia.
Qed.

(** The [password] path of a passport accepts an absent password, the
    empty string and any password of at most 63 characters; it rejects
    exactly the passwords of 64 characters or more. *)
Theorem password_validation (v : option string) :
  validate_password v = false
  ↔ ∃ s, v = Some s ∧ (64 ≤ String.length s)%nat.
Proof.
  destruct v as [s|].
  - rewrite validate_password_string, bool_decide_eq_false. split.
    + intros Hlen. exists s. split; [reflexivity | lia].
    + intros (s' & [= <-] & Hlen). lia.
  - split; [discriminate | intros (s & Hs & _); discriminate].
Qed.

Lemma validate_type_string (s : string) :
  validate_type (Some s) = bool_decide (s ∈ passport_types).
Proof.
  unfold validate_type, SchemaType.doValidate, SchemaType.enumValidator.
  cbn [js forallb SchemaType.checkRequired SchemaType.validator_ok truthy].
  rewrite andb_true_r. destruct s as [|c s]; [|reflexivity].
  cbn [String.length Nat.eqb negb andb]. symmetry.
  apply bool_decide_eq_false. unfold passport_types.
  rewrite !elem_of_cons, elem_of_nil.
  intros [H | [H | [H | []]]]; discriminate H.
Qed.

(** The [type] path of a passport is required and accepts exactly the
    three values of its enumeration. *)
Theorem type_validation (v : option string) :
  validate_type v = true
  ↔ v = Some "local" ∨ v = Some "facebook" ∨ v = Some "google".
Proof.
  destruct v as [s|].
  - rewrite validate_type_string, bool_decide_eq_true.
    unfold passport_types. rewrite !elem_of_cons, elem_of_nil. split.
    + intros [-> | [-> | [-> | []]]]; auto.
    + intros [[= ->] | [[= ->] | [= ->]]]; auto.
  - split; [discriminate | intros [H | [H | H]]; discriminate].
Qed.

Lemma invalid_nil (path : string) (ok : bool) :
  invalid path ok = [] ↔ ok = true.
Proof. destruct ok; cbn; split; done. Qed.

Lemma mjoin_imap_nil {A B : Type} (f : nat → A → list B) (l : list A) :
  mjoin (imap f l) = [] ↔ ∀ i x, l !! i = Some x → f i x = [].
Proof.
  revert f. induction l as [|a l IH]; intros f.
  - split; [intros _ i x Hi; discriminate | reflexivity].
  - simpl. rewrite app_nil, IH. split.
    + intros [Ha Hl] [|i] x Hi; [by injection Hi as <- | by apply (Hl i)].
    + intros Hall. split; [by apply (Hall 0%nat) |].
      intros i x Hi. by apply (Hall (S i)).
Qed.

Lemma passport_ok_validate (p : Passport.t) :
  passport_ok p
  ↔ validate_type (Passport.type p) = true
    ∧ validate_password (Passport.password p) = true.
Proof.
  unfold passport_ok. split.
  - intros [(t & Ht & Hin) Hpw]. split.
    + rewrite Ht, validate_type_string. by apply bool_decide_eq_true.
    + destruct (Passport.password p) as [pw|]; [|reflexivity].
      rewrite validate_password_string. apply bool_decide_eq_true. by apply Hpw.
  - intros [Htype Hpw]. split.
    + destruct (Passport.type p) as [t|]; [|discriminate].
      rewrite validate_type_string in Htype.
      apply bool_decide_eq_true in Htype. by exists t.
    + intros pw Hs. rewrite Hs, validate_password_string in Hpw.
      by apply bool_decide_eq_true in Hpw.
Qed.

(** Validation accepts a document exactly when its username has 1 to 31
    characters, its name, if any, has 1 to 63, and every passport has a
    type of the enumeration and a password, if any, of at most 63
    characters. An empty password passes validation: only the pre-save
    hook rejects it. *)
Theorem validate_accepts (this : User) :
  validate this = []
  ↔ (∃ u, username this = Some u ∧ (1 ≤ String.length u ≤ 31)%nat)
    ∧ (∀ n, name this = Some n → (1 ≤ String.length n ≤ 63)%nat)
    ∧ Forall passport_ok (passports this).
Proof.
  unfold validate. rewrite !app_nil, !invalid_nil, mjoin_imap_nil.
  rewrite Forall_lookup.
  split.
  - intros (Huser & Hname & Hpass). split_and!.
    + destruct (username this) as [u|]; [|discriminate].
      rewrite validate_username_string in Huser.
      apply bool_decide_eq_true in Huser. by exists u.
    + intros n Hn. rewrite Hn, validate_name_string in Hname.
      by apply bool_decide_eq_true in Hname.
    + intros i p Hi. apply passport_ok_validate.
      specialize (Hpass i p Hi). apply app_nil in Hpass as [Ht Hp].
      by rewrite !invalid_nil in Ht, Hp.
  - intros ((u & Hu & Hlen) & Hname & Hpass). split_and!.
    + rewrite Hu, validate_username_string. by apply bool_decide_eq_true.
    + destruct (name this) as [n|]; [|reflexivity].
      rewrite validate_name_string. apply bool_decide_eq_true. by apply Hname.
    + intros i p Hi. apply app_nil. rewrite !invalid_nil.
      apply passport_ok_validate. by apply (Hpass i).
Qed.

Lemma trimStart_blank (s : string) :
  blank s = true → JsString.trimStart s = "".
Proof.
  induction s as [|c s IH]; [reflexivity|].
  cbn [blank JsString.trimStart]. intros [Hc Hs]%andb_true_iff.
  rewrite Hc. by apply IH.
Qed.

(** A username of white space only is stored as the empty string and
    fails validation, like a missing one. *)
Theorem blank_username_rejected (raw : string) (this : User) :
  blank raw = true →
  username (set_username raw this) = Some ""
  ∧ validate (set_username raw this) ≠ [].
Proof.
  intros Hblank.
  assert (username (set_username raw this) = Some "") as Hstored.
  { cbn [username set_username]. unfold JsString.trim.
    by rewrite trimStart_blank. }
  split; [exact Hstored|].
  intros Hvalid%validate_reports_username.
  rewrite Hstored in Hvalid. discriminate Hvalid.
Qed.

Lemma blank_username_rejected_witness :
  blank "   " = true
  ∧ username (set_username "   " alice) = Some ""
  ∧ validate (set_username "   " alice) ≠ [].
Proof.
  split; [reflexivity|].
  exact (blank_username_rejected "   " alice eq_refl).
Defined.

(** *** Passports and password verification *)

(** [getPassportByType] answers with a passport of the user that has the
    type asked for, the earliest one in the sequence; it answers
    [undefined] exactly when no passport has that type. *)
Theorem getPassportByType_first_match (this : User) (type : string) :
  match getPassportByType this type with
  | Some (i, p) =>
      passports this !! i = Some p
      ∧ Passport.type p = Some type
      ∧ ∀ j q, passports this !! j = Some q → (j < i)%nat →
               Passport.type q ≠ Some type
  | None => ∀ p, p ∈ passports this → Passport.type p ≠ Some type
  end.
Proof.
  unfold getPassportByType.
  destruct (list_find (is_type type) (passports this)) as [[i p]|] eqn:Hfind.
  - by apply list_find_Some in Hfind.
  - apply list_find_None in Hfind. rewrite Forall_forall in Hfind.
    intros p Hp. by apply Hfind.
Qed.

(** Under one and the same bcrypt the two variants of the verification
    agree: where the asynchronous one reports an error the synchronous one
    throws it, and where the first answers a boolean the second returns a
    value of that truthiness. *)
Theorem verifyPasswordSync_agrees (env : Env) (log : list Call) (this : User)
    (password : option string) :
  match (run env log (verifyPassword this password)).1,
        (run env log (verifyPasswordSync this password)).1 with
  | inr b, inr v => truthy v = b
  | inl err, inl err' => err = err'
  | _, _ => False
  end.
Proof.
  unfold verifyPassword, verifyPasswordSync.
  destruct (truthy (js password)) eqn:Hpw; [|by cbn].
  destruct (getPassportByType this "local") as [[i lp]|]; [|reflexivity].
  cbn [run fst].
  by destruct (compare_answer env log (js password) (js (Passport.password lp))).
Qed.

(** After a successful save, verification compares the plaintext offered
    with the digest bcrypt produced during that save, as the passport now
    stores it. *)
Theorem verifyPassword_after_save (env : Env) (log : list Call)
    (this this1 : User) (log1 : list Call) (password : option string) :
  run env log (save this) = ((this1, None), log1) →
  truthy (js password) = true →
  ∃ i lp digest,
    getPassportByType this "local" = Some (i, lp)
    ∧ hash_answer env (log ++ [presave_info lp])
        (js (Passport.password lp)) 10 = inr digest
    ∧ verifyPassword this1 password
      = bcrypt_compare (js password) (VString (JsString.trim digest)) Ret.
Proof.
  intros (i & lp & digest & Hlocal & Hlocal1 & Hhash & _)%save_hashes_once Hpw.
  exists i, lp, digest. split_and!; [done..|].
  unfold verifyPassword. by rewrite Hpw, Hlocal1.
Qed.

Lemma verifyPassword_after_save_witness :
  let saved := (run toy_bcrypt [] (save alice)).1.1 in
  truthy (js (Some "s3cret")) = true
  ∧ ∃ i lp digest,
      getPassportByType alice "local" = Some (i, lp)
      ∧ hash_answer toy_bcrypt ([] ++ [presave_info lp])
          (js (Passport.password lp)) 10 = inr digest
      ∧ verifyPassword saved (Some "s3cret")
        = bcrypt_compare (js (Some "s3cret"))
            (VString (JsString.trim digest)) Ret.
Proof.
  intros saved. split; [reflexivity|].
  exact (verifyPassword_after_save toy_bcrypt [] alice saved
           (run toy_bcrypt [] (save alice)).2 (Some "s3cret") eq_refl eq_refl).
Defined.

(** *** The pre-save hook: failures, footprint and log *)

(** When bcrypt fails to hash, the hook hands on the very error bcrypt
    reported, after a single attempt, and the passports stay as they were
    submitted, the password still in plaintext. *)
Theorem hash_failure_propagates (env : Env) (log : list Call)
    (this this' : User) (err : Error) (log' : list Call) :
  run env log (beforeSave this) = ((this', Some (HashError err)), log') →
  this' = with_default_name this
  ∧ passports this' = passports this
  ∧ ∃ i lp,
      getPassportByType this "local" = Some (i, lp)
      ∧ hash_answer env (log ++ [presave_info lp])
          (js (Passport.password lp)) 10 = inl err
      ∧ log' = log ++ [presave_info lp; CallHash (js (Passport.password lp)) 10].
Proof.
  rewrite run_beforeSave.
  destruct (getPassportByType this "local") as [[i lp]|]; [|discriminate].
  destruct (truthy (js (Passport.password lp))); [|discriminate].
  destruct (hash_answer env (log ++ [presave_info lp])
              (js (Passport.password lp)) 10) as [err'|digest] eqn:Hhash;
    [|discriminate].
  intros [= <- <- <-]. split_and!; [reflexivity | |].
  - apply passports_with_default_name.
  - by exists i, lp.
Qed.

Lemma hash_failure_propagates_witness :
  run failing_bcrypt [] (beforeSave alice)
  = ((with_default_name alice, Some (HashError "not enough entropy")),
     [presave_info alice_passport; CallHash (VString "s3cret") 10])
  ∧ passports (with_default_name alice) = passports alice.
Proof.
  split; [reflexivity|].
  exact (proj1 (proj2 (hash_failure_propagates failing_bcrypt [] alice
                         _ _ _ eq_refl))).
Defined.

(** Whatever its outcome, the hook touches nothing but the name (when
    empty) and the password of the local passport it located: the other
    paths of the document, the number and order of the passports, every
    other passport and the other paths of the local one are as before. *)
Theorem beforeSave_frame (env : Env) (log : list Call) (this : User) :
  let this' := (run env log (beforeSave this)).1.1 in
  _id this' = _id this
  ∧ username this' = username this
  ∧ avatarUrl this' = avatarUrl this
  ∧ createdAt this' = createdAt this
  ∧ updatedAt this' = updatedAt this
  ∧ __v this' = __v this
  ∧ (truthy (js (name this)) = true → name this' = name this)
  ∧ length (passports this') = length (passports this)
  ∧ ∀ j p,
      passports this !! j = Some p →
      ∃ p', passports this' !! j = Some p'
            ∧ Passport._id p' = Passport._id p
            ∧ Passport.type p' = Passport.type p
            ∧ Passport.accessToken p' = Passport.accessToken p
            ∧ Passport.profileId p' = Passport.profileId p
            ∧ (getPassportByType this "local" ≠ Some (j, p) → p' = p).
Proof.
  assert (∀ u : User,
            u = with_default_name this →
            _id u = _id this ∧ username u = username this
            ∧ avatarUrl u = avatarUrl this ∧ createdAt u = createdAt this
            ∧ updatedAt u = updatedAt this ∧ __v u = __v this
            ∧ (truthy (js (name this)) = true → name u = name this)
            ∧ passports u = passports this) as Hdefault.
  { intros u ->. unfold with_default_name, js_not.
    destruct (truthy (js (name this))); cbn; split_and!; done. }
  destruct (Hdefault _ eq_refl)
    as (Hid & Huser & Havatar & Hcreated & Hupdated & Hv & Hname & Hpass).
  assert (∀ j p, passports this !! j = Some p →
            ∃ p', passports this !! j = Some p'
                  ∧ Passport._id p' = Passport._id p
                  ∧ Passport.type p' = Passport.type p
                  ∧ Passport.accessToken p' = Passport.accessToken p
                  ∧ Passport.profileId p' = Passport.profileId p
                  ∧ (getPassportByType this "local" ≠ Some (j, p) → p' = p))
    as Hsame by (intros j p Hj; exists p; by split_and!).
  cbv zeta. rewrite run_beforeSave.
  destruct (getPassportByType this "local") as [[i lp]|] eqn:Hlocal;
    cbn [fst]; [|by rewrite Hpass].
  destruct (truthy (js (Passport.password lp))); cbn [fst];
    [|by rewrite Hpass].
  destruct (hash_answer env (log ++ [presave_info lp])
              (js (Passport.password lp)) 10) as [err|digest];
    cbn [fst]; [by rewrite Hpass|].
  unfold set_localPassport_password.
  cbn [_id username avatarUrl createdAt updatedAt __v name passports
       set_passports].
  rewrite Hpass. split_and!; [done.. | apply length_alter |].
  intros j p Hj. rewrite list_lookup_alter.
  destruct (decide (i = j)) as [<-|Hne]; [|by apply Hsame].
  rewrite Hj. cbn [fmap option_fmap option_map].
  eexists. split_and!; [reflexivity.. |].
  intros Hother. apply list_find_Some in Hlocal as (Hi & _).
  rewrite Hj in Hi. injection Hi as ->. by destruct Hother.
Qed.

(** The hook prints the local passport it located before it hashes: when
    that passport holds a password, the plaintext is part of what goes to
    the console. *)
Theorem beforeSave_logs_password (env : Env) (log : list Call) (this : User)
    (i : nat) (lp : Passport.t) (pw : string) :
  getPassportByType this "local" = Some (i, lp) →
  Passport.password lp = Some pw →
  ∃ fields,
    CallInfo [VString "presave localPassport"; VObject fields]
      ∈ (run env log (beforeSave this)).2
    ∧ ("password", VString pw) ∈ fields.
Proof.
  intros Hlocal Hpw. eexists. split.
  - rewrite run_beforeSave, Hlocal.
    destruct (truthy (js (Passport.password lp))); cbn [snd].
    + destruct (hash_answer env (log ++ [presave_info lp])
                  (js (Passport.password lp)) 10);
        cbn [snd]; apply elem_of_app; right; apply elem_of_cons; by left.
    + apply elem_of_app. right. apply elem_of_cons. by left.
  - rewrite Hpw. cbn [Passport.field]. rewrite !elem_of_app.
    right. left. apply elem_of_cons. by left.
Qed.

Lemma beforeSave_logs_password_witness :
  getPassportByType alice "local" = Some (0%nat, alice_passport)
  ∧ ∃ fields,
      CallInfo [VString "presave localPassport"; VObject fields]
        ∈ (run toy_bcrypt [] (beforeSave alice)).2
      ∧ ("password", VString "s3cret") ∈ fields.
Proof.
  split; [reflexivity|].
  exact (beforeSave_logs_password toy_bcrypt [] alice 0 alice_passport
           "s3cret" eq_refl eq_refl).
Defined.

(** The hook calls [next()] without error exactly when the local passport
    it locates has a non-empty password and bcrypt answers with a digest;
    the document it leaves is then the one it received with the name
    defaulted and the trimmed digest in place of the password. *)
Theorem beforeSave_succeeds_iff (env : Env) (log : list Call)
    (this this' : User) (log' : list Call) :
  run env log (beforeSave this) = ((this', None), log')
  ↔ ∃ i lp digest,
      getPassportByType this "local" = Some (i, lp)
      ∧ truthy (js (Passport.password lp)) = true
      ∧ hash_answer env (log ++ [presave_info lp])
          (js (Passport.password lp)) 10 = inr digest
      ∧ this' = set_localPassport_password i digest (with_default_name this)
      ∧ log' = log ++ [presave_info lp;
                       CallHash (js (Passport.password lp)) 10].
Proof.
  split.
  - apply run_beforeSave_success.
  - intros (i & lp & digest & Hlocal & Hpw & Hhash & -> & ->).
    by rewrite run_beforeSave, Hlocal, Hpw, Hhash.
Qed.

(** C4, as stated, fails: the sample user has a second local passport
    without password, yet the hook finds a password on the first one,
    hashes it and lets the save go on. *)
Lemma second_local_passport_ignored :
  ¬ empty_local_password_rejected toy_bcrypt dave.
Proof.
  unfold empty_local_password_rejected. intros Hclaim.
  destruct Hclaim as (this' & lp & log' & Hrun & _).
  { exists dave_second. split_and!; [|reflexivity..].
    apply elem_of_cons. right. apply elem_of_cons. by left. }
  assert ((run toy_bcrypt [] (beforeSave dave)).1.2 = None) as Hnone
    by reflexivity.
  rewrite Hrun in Hnone. discriminate Hnone.
Qed.

Example dave_saved :
  (run toy_bcrypt [] (save dave)).1.2 = None
  ∧ hash_calls (run toy_bcrypt [] (save dave)).2
    = [CallHash (VString "hunter2") 10]
  ∧ Passport.password <$> passports (run toy_bcrypt [] (save dave)).1.1
    = [Some "$2b$10$hunter2"; None].
Proof. by split_and!. Qed.

Lemma beforeSave_frame_witness :
  let saved := (run toy_bcrypt [] (beforeSave dave)).1.1 in
  name saved = Some "David"
  ∧ passports saved
    = [Passport.set_password "$2b$10$hunter2" dave_first; dave_second].
Proof.
  intros saved.
  destruct (beforeSave_frame toy_bcrypt [] dave)
    as (_ & _ & _ & _ & _ & _ & Hname & _ & Hpass).
  split; [exact (Hname eq_refl)|].
  destruct (Hpass 1%nat dave_second eq_refl) as (p' & Hp' & _ & _ & _ & _ & Heq).
  rewrite Heq in Hp' by discriminate.
  reflexivity.
Defined.

(** One run of the hook costs at most one call to bcrypt, a [hash] with
    cost factor 10 of a non-empty password: it never hashes an absent or
    empty password and never compares. *)
Theorem beforeSave_hash_budget (env : Env) (log : list Call) (this : User) :
  ∃ calls,
    bcrypt_calls (run env log (beforeSave this)).2 = bcrypt_calls log ++ calls
    ∧ (calls = [] ∨ ∃ pw, pw ≠ "" ∧ calls = [CallHash (VString pw) 10]).
Proof.
  rewrite run_beforeSave.
  destruct (getPassportByType this "local") as [[i lp]|];
    [|exists []; split; [by rewrite app_nil_r | by left]].
  destruct (truthy (js (Passport.password lp))) eqn:Hpw.
  - apply truthy_js_non_empty in Hpw as (pw & Hpw & Hne).
    exists [CallHash (VString pw) 10]. rewrite Hpw. split.
    + by destruct (hash_answer env _ _ 10); cbn [snd];
        rewrite bcrypt_calls_app.
    + right. by exists pw.
  - exists []. split; [|by left].
    cbn [snd]. rewrite bcrypt_calls_app. reflexivity.
Qed.

Lemma save_with_empty_passwords_witness :
  Exists (λ p, Passport.type p = Some "local") (passports carol)
  ∧ ∃ lp, (run toy_bcrypt [] (beforeSave carol)).1
          = (with_default_name carol, Some (MissingPassword lp))
          ∧ bcrypt_calls (run toy_bcrypt [] (beforeSave carol)).2
            = bcrypt_calls [].
Proof.
  assert (Exists (λ p, Passport.type p = Some "local") (passports carol))
    as Hsome by (apply Exists_cons_tl, Exists_cons_hd; reflexivity).
  split; [exact Hsome|].
  apply (save_with_empty_passwords carol toy_bcrypt [] Hsome).
  repeat constructor; discriminate.
Defined.

(** *** The client projection *)

Lemma lookup_set_field (k k' : string) (v : option JsVal)
    (m : gmap string JsVal) :
  set_field k v m !! k'
  = if decide (k = k')
    then match v with Some x => Some x | None => m !! k' end
    else m !! k'.
Proof.
  destruct v as [x|]; cbn; [apply lookup_insert | by case_decide].
Qed.

Ltac destruct_fields :=
  repeat match goal with
    | |- context [match ?o with Some _ => _ | None => _ end] => destruct o
    end.

Lemma toClient_lookup (this : User) (k : string) :
  toClient this !! k =
  if decide (k = "passports") then None
  else if decide (k = "_id") then None
  else if decide (k = "id") then Some (VObjectId (_id this))
  else if decide (k = "__v") then VNum <$> __v this
  else if decide (k = "updatedAt") then VDate <$> updatedAt this
  else if decide (k = "createdAt") then VDate <$> createdAt this
  else if decide (k = "avatarUrl") then VString <$> avatarUrl this
  else if decide (k = "name") then VString <$> name this
  else if decide (k = "username") then VString <$> username this
  else None.
Proof.
  unfold toClient, get. rewrite toObject_lookup_id. cbn [default].
  rewrite !lookup_delete, lookup_insert. unfold toObject.
  rewrite !lookup_set_field, lookup_insert, !lookup_set_field, lookup_insert,
    lookup_empty.
  repeat match goal with
    | |- context [decide (k = ?key)] =>
        destruct (decide (k = key)) as [->|?];
        [vm_compute; destruct_fields; reflexivity |]
    end.
  by repeat (case_decide; try congruence).
Qed.

(** What the client sees of a user: the identifier under [id] and the
    username, name, avatar and time stamps that are set, each with the
    value the document holds; no other key, whatever the passports
    contain. *)
Theorem toClient_fields (this : User) :
  toClient this !! "username" = VString <$> username this
  ∧ toClient this !! "name" = VString <$> name this
  ∧ toClient this !! "avatarUrl" = VString <$> avatarUrl this
  ∧ toClient this !! "createdAt" = VDate <$> createdAt this
  ∧ toClient this !! "updatedAt" = VDate <$> updatedAt this
  ∧ toClient this !! "__v" = VNum <$> __v this
  ∧ ∀ k,
      k ∉ ["id"; "username"; "name"; "avatarUrl"; "createdAt"; "updatedAt";
           "__v"] →
      toClient this !! k = None.
Proof.
  split_and!; try (rewrite toClient_lookup; reflexivity).
  intros k Hk. rewrite !not_elem_of_cons in Hk.
  destruct Hk as (? & ? & ? & ? & ? & ? & ? & _).
  rewrite toClient_lookup. by repeat case_decide.
Qed.

(** The projection does not depend on the passports: two users that differ
    in their passports only look the same to the client. *)
Theorem toClient_ignores_passports (this : User) (ps : list Passport.t) :
  toClient (set_passports ps this) = toClient this.
Proof.
  apply map_eq. intros k. by rewrite !toClient_lookup.
Qed.

End UserFacts.


(** ** The message schema: validation, projection, time stamps, footer *)

Module MessageFacts.

Import messageSchema MessageClaims MessageSpec Conditions.

Lemma validate_required_text (n : Z) (v : option string) :
  SchemaType.doValidate true
    [λ v, v &&& VBool (0 <? js_length v) &&& VBool (js_length v <? n)] (js v)
  = true
  ↔ ∃ s, v = Some s ∧ 1 ≤ Z.of_nat (String.length s) < n.
Proof.
  destruct v as [s|].
  - unfold SchemaType.doValidate. cbn [js forallb SchemaType.checkRequired].
    rewrite UserFacts.bounded_validator_string, andb_true_r.
    rewrite !andb_true_iff, negb_true_iff, Nat.eqb_neq, !Z.ltb_lt. split.
    + intros (Hz & Hpos & Hlt). exists s. split; [reflexivity | lia].
    + intros (s' & [= <-] & Hlen). split_and!; lia.
  - split; [discriminate | intros (s & Hs & _); discriminate].
Qed.

Lemma validate_optional_text (v : option string) :
  SchemaType.doValidate false
    [λ v, VBool (js_not v || (js_length v <? 256))] (js v) = true
  ↔ text_up_to_255 v.
Proof.
  unfold text_up_to_255. destruct v as [s|].
  - unfold SchemaType.doValidate, js_not.
    cbn [js forallb SchemaType.validator_ok truthy js_length].
    rewrite andb_true_r. split.
    + intros Hok s' [= <-].
      apply orb_true_iff in Hok as [Hempty | Hlt].
      * apply negb_true_iff, negb_false_iff, Nat.eqb_eq in Hempty. lia.
      * apply Z.ltb_lt in Hlt. lia.
    + intros Hlen. apply orb_true_iff. right. apply Z.ltb_lt.
      specialize (Hlen s eq_refl). lia.
  - split; [intros _ s Hs; discriminate | reflexivity].
Qed.

Lemma avatarUrl_valid (v : option string) :
  validate_creator_avatarUrl v = true.
Proof. by destruct v as [[|c s]|]. Qed.

Lemma elem_of_invalid (path p : string) (ok : bool) :
  p ∈ userSchema.invalid path ok → p = path.
Proof.
  destruct ok; cbn; [by intros ?%elem_of_nil|].
  by intros ->%list_elem_of_singleton.
Qed.

(** The validator of [creator.avatarUrl] cannot fail: whatever the avatar
    is, absent, empty or of any length, the path is valid, and validation
    never reports it. *)
Theorem creator_avatarUrl_always_valid (this : Message) :
  validate_creator_avatarUrl (avatarUrl (creator this)) = true
  ∧ "creator.avatarUrl" ∉ validate this.
Proof.
  split; [apply avatarUrl_valid|].
  unfold validate. rewrite avatarUrl_valid, !elem_of_app.
  intros [H | [H | [H | [H | [H | [H | H]]]]]];
    try (apply elem_of_invalid in H; discriminate H).
  cbn in H. by apply elem_of_nil in H.
Qed.

(** Validation accepts a message exactly when the creator's name and the
    text have 1 to 255 characters each and every geolocation path that is
    set has at most 255; the avatar of the creator is never a reason to
    reject. *)
Theorem message_validate_accepts (this : Message) :
  validate this = []
  ↔ text_1_to_255 (name (creator this))
    ∧ text_1_to_255 (text this)
    ∧ text_up_to_255 (country_name (geo this))
    ∧ text_up_to_255 (region_name (geo this))
    ∧ text_up_to_255 (city (geo this))
    ∧ text_up_to_255 (time_zone (geo this)).
Proof.
  assert (∀ v, text_1_to_255 v
               ↔ ∃ s, v = Some s ∧ 1 ≤ Z.of_nat (String.length s) < 256)
    as Hrange.
  { intros v. unfold text_1_to_255.
    split; intros (s & Hs & Hlen); exists s; (split; [exact Hs | lia]). }
  unfold validate. rewrite !app_nil, !UserFacts.invalid_nil.
  rewrite !Hrange, <- !validate_optional_text, <- !validate_required_text.
  pose proof (avatarUrl_valid (avatarUrl (creator this))) as Havatar.
  unfold validate_creator_name, validate_text, validate_country_name,
    validate_region_name, validate_city, validate_time_zone,
    creator_name_validator, text_validator, country_name_validator,
    region_name_validator, city_validator, time_zone_validator.
  tauto.
Qed.

(** The client view of a message: the identifier moves from [_id] to [id]
    and every other key of the plain object, the creator snapshot and the
    geolocation among them, is passed on as it is. *)
Theorem message_toClient_lookup (obj : gmap string JsVal) :
  toClient obj !! "id" = Some (userSchema.get obj "_id")
  ∧ toClient obj !! "_id" = None
  ∧ ∀ k, k ≠ "id" → k ≠ "_id" → toClient obj !! k = obj !! k.
Proof.
  unfold toClient. split_and!.
  - rewrite lookup_delete_ne by discriminate. apply lookup_insert_eq.
  - apply lookup_delete_eq.
  - intros k Hid H_id.
    rewrite lookup_delete_ne by congruence. by rewrite lookup_insert_ne.
Qed.

(** *** Time stamps *)

Lemma append_cons (c : ascii) (s1 s2 : string) :
  String c s1 +:+ s2 = String c (s1 +:+ s2).
Proof. reflexivity. Qed.

Lemma length_append (s1 s2 : string) :
  String.length (s1 +:+ s2) = (String.length s1 + String.length s2)%nat.
Proof.
  induction s1 as [|c s1 IH]; [reflexivity|].
  rewrite append_cons. cbn [String.length]. by rewrite IH.
Qed.

(** A counted answer is longer than "just now". *)
Lemma counted_not_just_now (n : Z) (unit : string) :
  (8 < String.length unit)%nat → pretty n +:+ unit ≠ "just now".
Proof.
  intros Hlen Heq. apply (f_equal String.length) in Heq.
  rewrite length_append in Heq. cbn in Heq. lia.
Qed.

Lemma delta_lt (now : Z) (this : Message) (seconds : Z) :
  delta now this < seconds ↔ now - createdAt this < 1000 * seconds - 500.
Proof.
  rewrite delta_milliseconds. split.
  - intros Hlt.
    destruct (Z.lt_ge_cases (now - createdAt this) (1000 * seconds - 500))
      as [Hms|Hms]; [exact Hms|].
    assert (seconds ≤ (now - createdAt this + 500) / 1000)
      by (apply Z.div_le_lower_bound; lia).
    lia.
  - intros Hms. apply Z.div_lt_upper_bound; lia.
Qed.

(** In milliseconds: a message reads "just now" exactly while it is less
    than 29.5 seconds old, a creation date in the future included. *)
Theorem just_now_iff (now : Z) (this : Message) :
  friendlyTimestamp now this = "just now" ↔ now - createdAt this < 29500.
Proof.
  rewrite <- (delta_lt now this 30), friendlyTimestamp_delta. cbv zeta.
  destruct (Z.ltb_spec (delta now this) 30) as [Hlt|Hge]; [done|].
  split; [|lia]. intros Heq. exfalso. revert Heq.
  repeat match goal with
    | |- (if ?b then _ else _) = _ → _ => destruct b
    end;
    try discriminate; apply counted_not_just_now; cbn; lia.
Qed.

Lemma div_range (d b lo hi : Z) :
  0 < b → b * lo ≤ d → d < b * (hi + 1) → lo ≤ d / b ≤ hi.
Proof.
  intros Hb Hlo Hhi. split.
  - by apply Z.div_le_lower_bound.
  - assert (d / b < hi + 1) by (by apply Z.div_lt_upper_bound). lia.
Qed.

(** Every answer of [friendlyTimestamp] is one of five fixed texts or a
    count with its unit, and the count is never 0 or 1: seconds run from 30
    to 59, minutes from 2 to 59, hours from 2 to 23 and days from 2 to 6. *)
Theorem friendlyTimestamp_forms (now : Z) (this : Message) :
  let answer := friendlyTimestamp now this in
  answer ∈ ["just now"; "a minute ago"; "1 hour ago"; "yesterday";
            " a long time ago"]
  ∨ (∃ n, 30 ≤ n ≤ 59 ∧ answer = pretty n +:+ " seconds ago")
  ∨ (∃ n, 2 ≤ n ≤ 59 ∧ answer = pretty n +:+ " minutes ago")
  ∨ (∃ n, 2 ≤ n ≤ 23 ∧ answer = pretty n +:+ " hours ago")
  ∨ (∃ n, 2 ≤ n ≤ 6 ∧ answer = pretty n +:+ " days ago").
Proof.
  cbv zeta. rewrite friendlyTimestamp_delta. cbv zeta.
  set (d := delta now this). unfold minute, hour, day, week.
  destruct (Z.ltb_spec d 30); [left; set_solver|].
  destruct (Z.ltb_spec d 60);
    [right; left; exists d; split; [lia | reflexivity]|].
  destruct (Z.ltb_spec d (2 * 60)); [left; set_solver|].
  destruct (Z.ltb_spec d 3600).
  { right. right. left. exists (d / 60). split; [|reflexivity].
    apply div_range; lia. }
  destruct (Z.eqb_spec (d / 3600) 1) as [Hone|Hone]; [left; set_solver|].
  destruct (Z.ltb_spec d 86400).
  { right. right. right. left. exists (d / 3600). split; [|reflexivity].
    assert (1 ≤ d / 3600 ≤ 23) by (apply div_range; lia). lia. }
  destruct (Z.ltb_spec d (86400 * 2)); [left; set_solver|].
  destruct (Z.ltb_spec d 604800); [|left; set_solver].
  right. right. right. right. exists (d / 86400). split; [|reflexivity].
  apply div_range; lia.
Qed.

Lemma friendlyTimestamp_buckets_witness :
  friendlyTimestamp (-5000) hello = "just now"
  ∧ friendlyTimestamp 45000 hello = "45 seconds ago"
  ∧ friendlyTimestamp 119499 hello = "a minute ago"
  ∧ friendlyTimestamp 3599499 hello = "59 minutes ago"
  ∧ friendlyTimestamp 7199499 hello = "1 hour ago"
  ∧ friendlyTimestamp 7199500 hello = "2 hours ago"
  ∧ friendlyTimestamp 86400000 hello = "yesterday"
  ∧ friendlyTimestamp 518400000 hello = "6 days ago"
  ∧ friendlyTimestamp 604799500 hello = " a long time ago".
Proof.
  split_and!.
  - apply (proj1 (friendlyTimestamp_buckets (-5000) hello)). by vm_compute.
  - apply (proj1 (proj2 (friendlyTimestamp_buckets 45000 hello))).
    by vm_compute.
  - apply (proj1 (proj2 (proj2 (friendlyTimestamp_buckets 119499 hello)))).
    by vm_compute.
  - destruct (friendlyTimestamp_buckets 3599499 hello)
      as (_ & _ & _ & Hminutes & _).
    apply Hminutes. by vm_compute.
  - destruct (friendlyTimestamp_buckets 7199499 hello)
      as (_ & _ & _ & _ & Hhour & _).
    apply Hhour. by vm_compute.
  - destruct (friendlyTimestamp_buckets 7199500 hello)
      as (_ & _ & _ & _ & _ & Hhours & _).
    apply Hhours. by vm_compute.
  - destruct (friendlyTimestamp_buckets 86400000 hello)
      as (_ & _ & _ & _ & _ & _ & Hyesterday & _).
    apply Hyesterday. by vm_compute.
  - destruct (friendlyTimestamp_buckets 518400000 hello)
      as (_ & _ & _ & _ & _ & _ & _ & Hdays & _).
    apply Hdays. by vm_compute.
  - destruct (friendlyTimestamp_buckets 604799500 hello)
      as (_ & _ & _ & _ & _ & _ & _ & _ & Hlong).
    apply Hlong. by vm_compute.
Defined.

(** *** The footer *)

Lemma location_truthy (this : Message) (loc : string) :
  location this = Some loc → truthy (VString loc) = true.
Proof.
  unfold location.
  destruct (truthy (js (time_zone (geo this)))
            && (0 <? js_length (js (time_zone (geo this))))) eqn:Hzone.
  - intros Hloc. apply andb_true_iff in Hzone as [Hzone _].
    by rewrite Hloc in Hzone.
  - match goal with
    | |- (if ?b then _ else _) = _ → _ => destruct b
    end; [|discriminate].
    intros [= <-]. cbn [truthy]. rewrite !length_append. cbn [String.length].
    apply negb_true_iff, Nat.eqb_neq. lia.
Qed.

(** The location is never the empty string, so the footer is the time
    stamp alone exactly when the location is undefined, and the time
    stamp, a comma and the location otherwise. *)
Theorem footer_composition (now : Z) (this : Message) :
  location this ≠ Some ""
  ∧ footer now this
    = match location this with
      | Some loc => friendlyTimestamp now this +:+ ", " +:+ loc
      | None => friendlyTimestamp now this
      end.
Proof.
  split.
  - intros Hloc. by apply location_truthy in Hloc.
  - unfold footer. destruct (location this) as [loc|] eqn:Hloc; [|reflexivity].
    cbn [js js_string]. by rewrite (location_truthy this loc Hloc).
Qed.

End MessageFacts.

(** ** Start-up *)

Module BootstrapFacts.

Import userSchema db Conditions.

(** The outcome of a start-up under any storage layer, case by case. *)
Lemma run_initialize (st : Storage) (dbUri : string) :
  run st (initialize dbUri) =
  OpConnect dbUri :: OpFindOne [("username", VString "guestuser")] ::
  match findOne_answer st [("username", VString "guestuser")] with
  | inl err =>
      [OpError "failed to check guest user existence: " (LogError err)]
  | inr (Some _) => []
  | inr None =>
      OpCreateUser guest_doc ::
      match create_user_answer st guest_doc with
      | inl err => [OpError "failed to create guest user: " (LogError err)]
      | inr user =>
          OpInfo "guest user created: " (LogUser user) ::
          OpCreateMessage (default_message_doc user) ::
          match create_message_answer st (default_message_doc user) with
          | inl err =>
              [OpError "failed to create default message: " (LogError err)]
          | inr message =>
              [OpInfo "default message created: " (LogMessage message)]
          end
      end
  end.
Proof.
  unfold initialize. cbn [run].
  destruct (findOne_answer st _) as [err|[found|]]; cbn [run]; try reflexivity.
  destruct (create_user_answer st guest_doc) as [err|user]; cbn [run];
    [reflexivity|].
  by destruct (create_message_answer st (default_message_doc user)).
Qed.

(** When the guest user is already stored, or the look-up fails, the
    start-up creates nothing: neither a user nor a message. *)
Theorem initialize_creates_nothing (st : Storage) (dbUri : string) :
  findOne_answer st [("username", VString "guestuser")] ≠ inr None →
  List.filter is_create (run st (initialize dbUri)) = [].
Proof.
  intros Hfound. rewrite run_initialize.
  by destruct (findOne_answer st _) as [err|[found|]].
Qed.

Lemma initialize_creates_nothing_witness :
  findOne_answer seeded_storage [("username", VString "guestuser")] ≠ inr None
  ∧ List.filter is_create (run seeded_storage (initialize "mongodb://localhost/chat"))
    = [].
Proof.
  assert (findOne_answer seeded_storage [("username", VString "guestuser")]
          ≠ inr None) as Hfound by discriminate.
  split; [exact Hfound|].
  exact (initialize_creates_nothing seeded_storage _ Hfound).
Defined.

(** The start-up creates at most the guest user, and only when the look-up
    found none; it creates the default message only after the storage layer
    has answered the creation of the guest user with a document, and then
    the message carries the identifier, name and avatar of that document. *)
Theorem initialize_creates_in_order (st : Storage) (dbUri : string)
    (doc : JsVal) :
  (OpCreateUser doc ∈ run st (initialize dbUri) →
   doc = guest_doc
   ∧ findOne_answer st [("username", VString "guestuser")] = inr None)
  ∧ (OpCreateMessage doc ∈ run st (initialize dbUri) →
     ∃ user,
       findOne_answer st [("username", VString "guestuser")] = inr None
       ∧ create_user_answer st guest_doc = inr user
       ∧ doc = default_message_doc user).
Proof.
  rewrite run_initialize.
  destruct (findOne_answer st _) as [err|[found|]];
    [split; intros H; repeat (apply elem_of_cons in H as [H|H]; [discriminate H|]);
       by apply elem_of_nil in H.. |].
  destruct (create_user_answer st guest_doc) as [err|user].
  - split; intros H;
      repeat (apply elem_of_cons in H as [H|H];
              [first [discriminate H | by injection H as ->]|]);
      by apply elem_of_nil in H.
  - destruct (create_message_answer st (default_message_doc user));
      (split; intros H;
       repeat (apply elem_of_cons in H as [H|H];
               [first [discriminate H
                      | injection H as ->; first [done | by exists user]]|]);
       by apply elem_of_nil in H).
Qed.

Lemma initialize_creates_in_order_witness :
  OpCreateMessage (default_message_doc stored_guest)
    ∈ run empty_storage (initialize "mongodb://localhost/chat")
  ∧ ∃ user,
      findOne_answer empty_storage [("username", VString "guestuser")]
      = inr None
      ∧ create_user_answer empty_storage guest_doc = inr user
      ∧ default_message_doc stored_guest = default_message_doc user.
Proof.
  assert (OpCreateMessage (default_message_doc stored_guest)
            ∈ run empty_storage (initialize "mongodb://localhost/chat"))
    as Hin by (vm_compute; set_solver).
  split; [exact Hin|].
  exact (proj2 (initialize_creates_in_order empty_storage _ _) Hin).
Defined.

End BootstrapFacts.
